(** * bfhl-rest-api: a shallow embedding of [main.py]

    The service exposes [POST /bfhl], which accepts exactly one of five
    optional fields and answers with a Fibonacci prefix, the primes of a
    list, an LCM, an HCF, or the first word of a remote model's reply.

    Python integers are unbounded and are modelled by [Z]; exceptions are
    modelled by an explicit [outcome] type; the remote text-generation
    service and the process environment are a record passed to the
    functions that read them. *)

From Stdlib Require Import ZArith List String Ascii Bool Lia Znumtheory.
From Stdlib Require Import Permutation.
From Stdlib Require Import Floats.SpecFloat.
Import ListNotations.

Local Open Scope string_scope.
Local Open Scope Z_scope.
#[local] Set Warnings "-register-all".

(** ** Python runtime: values, exceptions, outcomes *)

Module Py.

(** The exception classes that [main.py] raises or can meet.  The payload
    of a [ValueError] family member is what [str(e)] returns. *)
Inductive exn : Type :=
| ValueError (msg : string)
| JSONDecodeError (msg : string)
| ZeroDivisionError
| OverflowError
| TypeError
| KeyError
| IndexError
| AttributeError
| RequestException.

(** [isinstance(e, ValueError)]: [json.JSONDecodeError] derives from
    [ValueError]; the arithmetic, lookup and transport errors do not. *)
Definition is_ValueError (e : exn) : bool :=
  match e with
  | ValueError _ | JSONDecodeError _ => true
  | _ => false
  end.

(** [str(e)] for the exceptions whose text the endpoint can show. *)
Definition str (e : exn) : string :=
  match e with
  | ValueError msg | JSONDecodeError msg => msg
  | ZeroDivisionError => "integer division or modulo by zero"
  | OverflowError => "int too large to convert to float"
  | TypeError => "TypeError"
  | KeyError => "KeyError"
  | IndexError => "list index out of range"
  | AttributeError => "AttributeError"
  | RequestException => "RequestException"
  end.

Inductive outcome (A : Type) : Type :=
| Return (a : A)
| Raise (e : exn).
Arguments Return {A} a.
Arguments Raise {A} e.

Definition bind {A B : Type} (m : outcome A) (k : A -> outcome B) : outcome B :=
  match m with
  | Return a => k a
  | Raise e => Raise e
  end.

(** Python objects as far as JSON bodies and response dictionaries need
    them.  A [dict] is the list of its items in insertion order. *)
Inductive pyobj : Type :=
| PyNone
| PyBool (b : bool)
| PyInt (n : Z)
| PyFloat (f : spec_float)
| PyStr (s : string)
| PyList (items : list pyobj)
| PyDict (items : list (string * pyobj)).

Fixpoint dict_get (items : list (string * pyobj)) (k : string) : option pyobj :=
  match items with
  | [] => None
  | (k', v) :: rest => if String.eqb k' k then Some v else dict_get rest k
  end.

(** [o[k]] for a string key [k]. *)
Definition getitem (o : pyobj) (k : string) : outcome pyobj :=
  match o with
  | PyDict items =>
      match dict_get items k with
      | Some v => Return v
      | None => Raise KeyError
      end
  | _ => Raise TypeError
  end.

(** [o[0]]. *)
Definition getitem0 (o : pyobj) : outcome pyobj :=
  match o with
  | PyList (x :: _) => Return x
  | PyList [] => Raise IndexError
  | PyStr (String c _) => Return (PyStr (String c EmptyString))
  | PyStr EmptyString => Raise IndexError
  | PyDict _ => Raise KeyError
  | _ => Raise TypeError
  end.

(** [functools.reduce(function, iterable)] without an initial value. *)
Fixpoint reduce_from {A : Type} (function : A -> A -> outcome A)
         (value : A) (it : list A) : outcome A :=
  match it with
  | [] => Return value
  | element :: it' =>
      bind (function value element) (fun value' => reduce_from function value' it')
  end.

Definition reduce {A : Type} (function : A -> A -> outcome A)
           (iterable : list A) : outcome A :=
  match iterable with
  | [] => Raise TypeError
  | value :: it => reduce_from function value it
  end.

(** [range(lo, hi)] as the list of its values. *)
Definition range (lo hi : Z) : list Z :=
  List.map (fun k => lo + Z.of_nat k) (seq 0 (Z.to_nat (hi - lo))).

(** [a // b] on integers. *)
Definition floordiv (a b : Z) : outcome Z :=
  if b =? 0 then Raise ZeroDivisionError else Return (a / b).

(** *** Binary64 floats

    [float(x)] rounds to nearest-even and raises [OverflowError] when the
    rounded value is not finite.  [int(f)] truncates towards zero.
    [float_sqrt] is the correctly rounded square root; the C library's
    [pow], which computes [f ** 0.5], may return the neighbouring float
    instead, so what depends on that rounding is stated further down for
    any power function within one unit in the last place. *)
Definition prec : Z := 53.
Definition emax : Z := 1024.

Definition float_of_int (x : Z) : outcome spec_float :=
  match binary_normalize prec emax x 0 false with
  | S754_infinity _ => Raise OverflowError
  | f => Return f
  end.

Definition float_sqrt (f : spec_float) : spec_float := SFsqrt prec emax f.

Definition int_of_float (f : spec_float) : outcome Z :=
  match f with
  | S754_zero _ => Return 0
  | S754_finite s m e =>
      let magnitude :=
        if 0 <=? e then Z.pos m * 2 ^ e else Z.pos m / 2 ^ (- e) in
      Return (if s then - magnitude else magnitude)
  | S754_infinity _ => Raise OverflowError
  | S754_nan => Raise (ValueError "cannot convert float NaN to integer")
  end.

(** *** Strings: [str.strip()] and [str.split()] with no argument *)

(** [c.isspace()] for a character with code point below 256. *)
Definition isspace (c : ascii) : bool :=
  let n := nat_of_ascii c in
  ((9 <=? n) && (n <=? 13) || (28 <=? n) && (n <=? 32)
   || (n =? 133) || (n =? 160))%nat.

Fixpoint lstrip (s : string) : string :=
  match s with
  | EmptyString => EmptyString
  | String c s' => if isspace c then lstrip s' else s
  end.

Fixpoint rstrip (s : string) : string :=
  match s with
  | EmptyString => EmptyString
  | String c s' =>
      match rstrip s' with
      | EmptyString => if isspace c then EmptyString else String c EmptyString
      | r => String c r
      end
  end.

Definition strip (s : string) : string := rstrip (lstrip s).

(** [split_from s word]: [word] is the word being read, if any. *)
Fixpoint split_from (s : string) (word : option string) : list string :=
  match s with
  | EmptyString =>
      match word with
      | Some w => [w]
      | None => []
      end
  | String c s' =>
      if isspace c then
        match word with
        | Some w => w :: split_from s' None
        | None => split_from s' None
        end
      else
        match word with
        | Some w => split_from s' (Some (w ++ String c EmptyString))
        | None => split_from s' (Some (String c EmptyString))
        end
  end.

Definition split (s : string) : list string := split_from s None.

End Py.

Import Py.

Declare Scope py_scope.
Delimit Scope py_scope with py.
Notation "x <- m ;; k" := (bind m (fun x => k))
  (at level 61, m at next level, right associativity) : py_scope.
Local Open Scope py_scope.

(** ** Utility functions *)

Module Utils.

(** The loop of [generate_fibonacci]: [k] iterations left, the list built
    so far, and the two running terms. *)
Fixpoint fibonacci_loop (k : nat) (series : list Z) (a b : Z) : list Z :=
  match k with
  | O => series
  | S k' => fibonacci_loop k' (series ++ [a]) b (a + b)
  end.

Definition generate_fibonacci (n : Z) : outcome (list Z) :=
  if n <? 0 then Raise (ValueError "Number must be non-negative")
  else Return (fibonacci_loop (Z.to_nat n) [] 0 1).

(** The [for] loop of [is_prime] over the candidate divisors; every
    candidate is at least 2, so [%] is [Z.modulo]. *)
Fixpoint no_divisor (x : Z) (candidates : list Z) : bool :=
  match candidates with
  | [] => true
  | i :: rest => if x mod i =? 0 then false else no_divisor x rest
  end.

(** [int(x ** 0.5)]. *)
Definition int_sqrt_float (x : Z) : outcome Z :=
  f <- float_of_int x ;;
  int_of_float (float_sqrt f).

Definition is_prime (x : Z) : outcome bool :=
  if x <? 2 then Return false
  else
    r <- int_sqrt_float x ;;
    Return (no_divisor x (range 2 (r + 1))).

(** The comprehension [[num for num in numbers if is_prime(num)]]. *)
Fixpoint primes_of (numbers : list Z) : outcome (list Z) :=
  match numbers with
  | [] => Return []
  | num :: rest =>
      keep <- is_prime num ;;
      tail <- primes_of rest ;;
      Return (if keep then num :: tail else tail)
  end.

Definition get_primes (numbers : list Z) : outcome (list Z) :=
  match numbers with
  | [] => Raise (ValueError "List cannot be empty")
  | _ => primes_of numbers
  end.

(** [math.gcd] is the non-negative greatest common divisor, with
    [gcd(0, 0) = 0]. *)
Definition gcd (a b : Z) : Z := Z.gcd a b.

Definition lcm (a b : Z) : outcome Z := floordiv (Z.abs (a * b)) (gcd a b).

Definition calculate_lcm (numbers : list Z) : outcome Z :=
  match numbers with
  | [] => Raise (ValueError "List cannot be empty")
  | _ => reduce lcm numbers
  end.

Definition calculate_hcf (numbers : list Z) : outcome Z :=
  match numbers with
  | [] => Raise (ValueError "List cannot be empty")
  | _ => reduce (fun a b => Return (gcd a b)) numbers
  end.

End Utils.


(** ** The remote answer fetcher *)

Module Gemini.

(** What [requests.post] hands back: the status code and the result of
    calling [.json()] on the response. *)
Record Response : Type := {
  status_code : Z;
  json : outcome pyobj
}.

(** The surroundings of the process: the credential read from the
    environment at start-up and the behaviour of the remote service
    ([requests.post] applied to the url, the headers and the JSON body). *)
Record world : Type := {
  GEMINI_API_KEY : option string;
  requests_post : string -> pyobj -> pyobj -> outcome Response
}.

(** [not GEMINI_API_KEY]: [None] and the empty string are falsy. *)
Definition not_key (key : option string) : bool :=
  match key with
  | None => true
  | Some EmptyString => true
  | Some _ => false
  end.

Definition key_text (key : option string) : string :=
  match key with
  | Some k => k
  | None => "None"
  end.

(** [answer.strip()] exists only on a string. *)
Definition str_of (o : pyobj) : outcome string :=
  match o with
  | PyStr s => Return s
  | _ => Raise AttributeError
  end.

(** [words[0]]. *)
Definition first_item (words : list string) : outcome string :=
  match words with
  | w :: _ => Return w
  | [] => Raise IndexError
  end.

(** The three arguments of the [requests.post] call. *)
Definition request_url (w : world) : string :=
  ("https://generativelanguage.googleapis.com/v1beta/models/gemini-2.5-flash:generateContent?key="
     ++ key_text (GEMINI_API_KEY w))%string.

Definition request_headers : pyobj :=
  PyDict [("Content-Type", PyStr "application/json")].

Definition request_body (question : string) : pyobj :=
  PyDict [("contents",
           PyList [PyDict [("parts",
                            PyList [PyDict [("text", PyStr question)]])]])].

(** [result["candidates"][0]["content"]["parts"][0]["text"]]. *)
Definition answer_of (result : pyobj) : outcome pyobj :=
  candidates <- getitem result "candidates" ;;
  candidate <- getitem0 candidates ;;
  content <- getitem candidate "content" ;;
  parts <- getitem content "parts" ;;
  part <- getitem0 parts ;;
  getitem part "text".

Definition ask_gemini (w : world) (question : string) : outcome string :=
  if not_key (GEMINI_API_KEY w) then
    Raise (ValueError "AI API key not configured")
  else
    response <- requests_post w (request_url w) request_headers
                              (request_body question) ;;
    if negb (status_code response =? 200) then
      Raise (ValueError "AI service error")
    else
      result <- json response ;;
      answer <- answer_of result ;;
      text <- str_of answer ;;
      first_item (split (strip text)).

End Gemini.

(** ** The request model and the route *)

Module Api.

Import Utils Gemini.

Definition OFFICIAL_EMAIL : string := "gorav0083.be23@chitkara.edu.in".

Record BFHLRequest : Type := {
  fibonacci : option Z;
  prime : option (list Z);
  lcm : option (list Z);
  hcf : option (list Z);
  AI : option string
}.

Definition of_ints (l : list Z) : pyobj := PyList (List.map PyInt l).

Definition of_option {A : Type} (f : A -> pyobj) (o : option A) : pyobj :=
  match o with
  | Some a => f a
  | None => PyNone
  end.

(** [request.dict().items()], in field order. *)
Definition dict_items (request : BFHLRequest) : list (string * pyobj) :=
  [ ("fibonacci", of_option PyInt (fibonacci request));
    ("prime", of_option of_ints (prime request));
    ("lcm", of_option of_ints (lcm request));
    ("hcf", of_option of_ints (hcf request));
    ("AI", of_option PyStr (AI request)) ].

Definition is_not_None (v : pyobj) : bool :=
  match v with
  | PyNone => false
  | _ => true
  end.

Definition provided_keys (request : BFHLRequest) : list string :=
  List.map fst (List.filter (fun kv => is_not_None (snd kv)) (dict_items request)).

(** [getattr(request, key)] for a field name. *)
Definition getattr (request : BFHLRequest) (key : string) : pyobj :=
  match dict_get (dict_items request) key with
  | Some v => v
  | None => PyNone
  end.

(** Reading a dynamically typed argument at the type the utility uses it. *)
Definition as_int (v : pyobj) : outcome Z :=
  match v with
  | PyInt n => Return n
  | _ => Raise TypeError
  end.

Fixpoint as_ints_items (items : list pyobj) : outcome (list Z) :=
  match items with
  | [] => Return []
  | v :: rest =>
      n <- as_int v ;;
      ns <- as_ints_items rest ;;
      Return (n :: ns)
  end.

Definition as_ints (v : pyobj) : outcome (list Z) :=
  match v with
  | PyList items => as_ints_items items
  | _ => Raise TypeError
  end.

Definition as_str (v : pyobj) : outcome string :=
  match v with
  | PyStr s => Return s
  | _ => Raise TypeError
  end.

(** What the route does is observed through the calls it makes: the name
    of the function called and its argument. *)
Inductive event : Type :=
| Called (function : string) (argument : pyobj).

Definition traced (A : Type) : Type := (list event * outcome A)%type.

Definition call {A : Type} (function : string) (argument : pyobj)
           (result : outcome A) : traced A :=
  ([Called function argument], result).

(** How the handler ends: it returns a dictionary (sent with status 200)
    or raises [HTTPException(status_code, detail)], whose [detail] is the
    envelope (the framework sends it under the key "detail" of the body). *)
Inductive endpoint_result : Type :=
| Returned (content : list (string * pyobj))
| HTTPException (status : Z) (detail : list (string * pyobj)).

Definition status_of (r : endpoint_result) : Z :=
  match r with
  | Returned _ => 200
  | HTTPException status _ => status
  end.

Definition envelope_of (r : endpoint_result) : list (string * pyobj) :=
  match r with
  | Returned content => content
  | HTTPException _ detail => detail
  end.

Definition error_envelope (message : string) : list (string * pyobj) :=
  [ ("is_success", PyBool false);
    ("official_email", PyStr OFFICIAL_EMAIL);
    ("error", PyStr message) ].

Definition process_request (w : world) (request : BFHLRequest)
  : list event * endpoint_result :=
  let keys := provided_keys request in
  if negb (Nat.eqb (List.length keys) 1) then
    ([], HTTPException 400 (error_envelope "Exactly one key must be provided"))
  else
    let key := nth 0 keys EmptyString in
    let value := getattr request key in
    let '(trace, data) :=
      if String.eqb key "fibonacci" then
        call "generate_fibonacci" value
             (n <- as_int value ;;
              series <- generate_fibonacci n ;;
              Return (of_ints series))
      else if String.eqb key "prime" then
        call "get_primes" value
             (numbers <- as_ints value ;;
              primes <- get_primes numbers ;;
              Return (of_ints primes))
      else if String.eqb key "lcm" then
        call "calculate_lcm" value
             (numbers <- as_ints value ;;
              result <- calculate_lcm numbers ;;
              Return (PyInt result))
      else if String.eqb key "hcf" then
        call "calculate_hcf" value
             (numbers <- as_ints value ;;
              result <- calculate_hcf numbers ;;
              Return (PyInt result))
      else if String.eqb key "AI" then
        call "ask_gemini" value
             (question <- as_str value ;;
              word <- ask_gemini w question ;;
              Return (PyStr word))
      else
        ([], Raise (ValueError "Invalid key")) in
    (trace,
     match data with
     | Return data =>
         Returned [ ("is_success", PyBool true);
                    ("official_email", PyStr OFFICIAL_EMAIL);
                    ("data", data) ]
     | Raise e =>
         if is_ValueError e then HTTPException 400 (error_envelope (str e))
         else HTTPException 500 (error_envelope "Internal server error")
     end).

Definition health_check : endpoint_result :=
  Returned [ ("is_success", PyBool true);
             ("official_email", PyStr OFFICIAL_EMAIL) ].

End Api.


(** ** Reference definitions used to state the properties *)

Module Spec.

Import Gemini Api.

(** The Fibonacci sequence 0, 1, 1, 2, ... indexed from 0. *)
Fixpoint fib (n : nat) : Z :=
  match n with
  | O => 0
  | S n' =>
      match n' with
      | O => 1
      | S n'' => fib n' + fib n''
      end
  end.

(** The pairwise formula [|a*b| / gcd(a,b)] on mathematical integers. *)
Definition lcm_formula (a b : Z) : Z := Z.abs (a * b) / Z.gcd a b.

Definition zeros (numbers : list Z) : nat := count_occ Z.eq_dec numbers 0.

Definition is_prime_number (x : Z) : bool :=
  if prime_dec x then true else false.

(** The square-root bound computed in floating point is usable for trial
    division on [x]: it reaches the integer square root and stays below
    [x]. *)
Definition accurate_sqrt (x : Z) : Prop :=
  exists r, Utils.int_sqrt_float x = Return r /\ Z.sqrt x <= r < x.

(** The member of a JSON object, the first element of a JSON array. *)
Definition member (k : string) (o : pyobj) : option pyobj :=
  match o with
  | PyDict items => dict_get items k
  | _ => None
  end.

Definition first (o : pyobj) : option pyobj :=
  match o with
  | PyList (x :: _) => Some x
  | _ => None
  end.

Definition and_then {A B : Type} (o : option A) (f : A -> option B) : option B :=
  match o with
  | Some a => f a
  | None => None
  end.

(** The value at [candidates[0].content.parts[0].text], if the body has
    that shape, and the string it holds, if it is one. *)
Definition candidate_answer (body : pyobj) : option pyobj :=
  and_then (member "candidates" body) (fun candidates =>
  and_then (first candidates) (fun candidate =>
  and_then (member "content" candidate) (fun content =>
  and_then (member "parts" content) (fun parts =>
  and_then (first parts) (fun part =>
  member "text" part))))).

Definition candidate_text (body : pyobj) : option string :=
  match candidate_answer body with
  | Some (PyStr s) => Some s
  | _ => None
  end.

(** The characters of [s] up to its first whitespace character. *)
Fixpoint first_word (s : string) : string :=
  match s with
  | EmptyString => EmptyString
  | String c s' => if isspace c then EmptyString else String c (first_word s')
  end.

(** How many of the five fields of a request are present. *)
Definition present {A : Type} (o : option A) : nat :=
  match o with
  | Some _ => 1
  | None => 0
  end.

Definition present_count (request : BFHLRequest) : nat :=
  (present (fibonacci request) + present (prime request) + present (lcm request)
   + present (hcf request) + present (AI request))%nat.


(** A failure that is not of the [ValueError] family. *)
Definition failed {A : Type} (r : outcome A) : Prop :=
  exists e, r = Raise e /\ is_ValueError e = false.

(** The shape the service gives an unexpected failure. *)
Definition generic_500 (r : endpoint_result) : Prop :=
  status_of r = 500 /\
  dict_get (envelope_of r) "error" = Some (PyStr "Internal server error").

(** A request that sets only the [AI] field. *)
Definition ai_request (question : string) : BFHLRequest :=
  {| fibonacci := None; prime := None; lcm := None; hcf := None;
     AI := Some question |}.

(** Three surroundings used as concrete instances: no credential; a
    remote service that answers 503; a remote service that answers 200
    with the given body. *)
Definition world_without_key : world :=
  {| GEMINI_API_KEY := None;
     requests_post := fun _ _ _ => Raise RequestException |}.

Definition world_unavailable : world :=
  {| GEMINI_API_KEY := Some "secret";
     requests_post := fun _ _ _ =>
       Return {| status_code := 503;
                 json := Raise (JSONDecodeError "Expecting value") |} |}.

Definition world_answering (body : pyobj) : world :=
  {| GEMINI_API_KEY := Some "secret";
     requests_post := fun _ _ _ =>
       Return {| status_code := 200; json := Return body |} |}.

Definition body_with_text (text : pyobj) : pyobj :=
  PyDict [("candidates",
           PyList [PyDict [("content",
                            PyDict [("parts",
                                     PyList [PyDict [("text", text)]])])]])].

(** Requests that set a single numeric field. *)
Definition only_fibonacci (n : Z) : BFHLRequest :=
  {| fibonacci := Some n; prime := None; lcm := None; hcf := None; AI := None |}.

Definition only_prime (numbers : list Z) : BFHLRequest :=
  {| fibonacci := None; prime := Some numbers; lcm := None; hcf := None;
     AI := None |}.

Definition only_lcm (numbers : list Z) : BFHLRequest :=
  {| fibonacci := None; prime := None; lcm := Some numbers; hcf := None;
     AI := None |}.

Definition only_hcf (numbers : list Z) : BFHLRequest :=
  {| fibonacci := None; prime := None; lcm := None; hcf := Some numbers;
     AI := None |}.

(** What the handler's [try]/[except] makes of the outcome of the call. *)
Definition respond (data : outcome pyobj) : endpoint_result :=
  match data with
  | Return d =>
      Returned [ ("is_success", PyBool true);
                 ("official_email", PyStr OFFICIAL_EMAIL);
                 ("data", d) ]
  | Raise e =>
      if is_ValueError e then HTTPException 400 (error_envelope (str e))
      else HTTPException 500 (error_envelope "Internal server error")
  end.

(** Mapping the value an utility returns to the [data] of the envelope. *)
Definition fmap {A B : Type} (f : A -> B) (m : outcome A) : outcome B :=
  match m with
  | Return a => Return (f a)
  | Raise e => Raise e
  end.

(** The greatest common divisor and the least common multiple of all the
    elements of a list, as non-negative integers. *)
Definition gcd_all (numbers : list Z) : Z := fold_right Z.gcd 0 numbers.

Definition lcm_all (numbers : list Z) : Z := fold_right Z.lcm 1 numbers.

(** A word: at least one character and no whitespace character. *)
Fixpoint no_whitespace (s : string) : bool :=
  match s with
  | EmptyString => true
  | String c s' => negb (isspace c) && no_whitespace s'
  end.

Definition is_word (s : string) : Prop :=
  s <> EmptyString /\ no_whitespace s = true.

(** A remote service that answers 200 with a body that is not JSON. *)
Definition world_undecodable : world :=
  {| GEMINI_API_KEY := Some "secret";
     requests_post := fun _ _ _ =>
       Return {| status_code := 200;
                 json := Raise (JSONDecodeError
                                  "Expecting value: line 1 column 1 (char 0)") |} |}.

End Spec.

(** ** The prime filter over the platform's power function

    [x ** 0.5] is computed by the C library's [pow], which is not part of
    the program.  Here [get_primes] is written once more with that
    function as a parameter [pow_half], the value of [f ** 0.5] on a
    float [f]; the rest is the code of [is_prime] and [get_primes]. *)

Module Platform.

Import Utils.

(** [int(x ** 0.5)]. *)
Definition int_sqrt_with (pow_half : spec_float -> spec_float) (x : Z)
  : outcome Z :=
  f <- float_of_int x ;;
  int_of_float (pow_half f).

Definition is_prime_with (pow_half : spec_float -> spec_float) (x : Z)
  : outcome bool :=
  if x <? 2 then Return false
  else
    r <- int_sqrt_with pow_half x ;;
    Return (no_divisor x (range 2 (r + 1))).

Fixpoint primes_of_with (pow_half : spec_float -> spec_float)
         (numbers : list Z) : outcome (list Z) :=
  match numbers with
  | [] => Return []
  | num :: rest =>
      keep <- is_prime_with pow_half num ;;
      tail <- primes_of_with pow_half rest ;;
      Return (if keep then num :: tail else tail)
  end.

Definition get_primes_with (pow_half : spec_float -> spec_float)
           (numbers : list Z) : outcome (list Z) :=
  match numbers with
  | [] => Raise (ValueError "List cannot be empty")
  | _ => primes_of_with pow_half numbers
  end.

(** The accuracy asked of [pow_half] on the floats between 1 and 2^53,
    written [mz * 2^ez] with a 53-bit [mz]: with [q] the integer square
    root of the argument scaled so that [q] has 53 bits, the result is
    [q * 2^e] (the float just below the exact root, or the root itself) or
    [(q + 1) * 2^e] (the next float up).  An error below one unit in the
    last place, and correct rounding, both meet it. *)
Definition within_one_ulp (pow_half : spec_float -> spec_float) : Prop :=
  forall (mz : positive) (ez : Z),
    2 ^ 52 <= Z.pos mz < 2 ^ 53 -> -52 <= ez <= 0 ->
    exists n,
      (n = Z.sqrt (Z.pos mz * 2 ^ (ez - 2 * (ez / 2 - 26))) \/
       n = Z.sqrt (Z.pos mz * 2 ^ (ez - 2 * (ez / 2 - 26))) + 1) /\
      pow_half (S754_finite false mz ez) =
      if n <? 2 ^ 53
      then S754_finite false (Z.to_pos n) (ez / 2 - 26)
      else S754_finite false (Z.to_pos (2 ^ 52)) (ez / 2 - 26 + 1).

(** A power function that always returns the float just below the exact
    root when the root is not a float: the other extreme of the accuracy
    above. *)
Definition sqrt_round_down (f : spec_float) : spec_float :=
  match f with
  | S754_finite false mz ez =>
      S754_finite false
        (Z.to_pos (Z.sqrt (Z.pos mz * 2 ^ (ez - 2 * (ez / 2 - 26)))))
        (ez / 2 - 26)
  | _ => f
  end.

End Platform.

Import Utils Gemini Api Spec Platform.

(** ** Fibonacci *)

Lemma fib_step (i : nat) : fib (S (S i)) = fib (S i) + fib i.
Proof. reflexivity. Qed.

Lemma fibonacci_loop_invariant (k : nat) :
  forall (i : nat) (series : list Z),
    fibonacci_loop k series (fib i) (fib (S i)) =
    (series ++ List.map fib (seq i k))%list.
Proof.
  induction k as [|k IH]; intros i series; cbn [fibonacci_loop seq List.map].
  - now rewrite app_nil_r.
  - replace (fib i + fib (S i)) with (fib (S (S i))) by (rewrite fib_step; lia).
    rewrite IH, <- app_assoc. reflexivity.
Qed.

Lemma generate_fibonacci_nonneg (n : Z) :
  0 <= n ->
  generate_fibonacci n = Return (List.map fib (seq 0 (Z.to_nat n))).
Proof.
  intros Hn. unfold generate_fibonacci.
  destruct (Z.ltb_spec n 0) as [Hlt|_]; [lia|].
  f_equal. exact (fibonacci_loop_invariant (Z.to_nat n) 0 []).
Qed.

(** C4: [generate_fibonacci n] raises [ValueError "Number must be
    non-negative"] for every [n < 0]; for every [n >= 0] it returns a list
    of length exactly [n] whose [i]-th term is the [i]-th Fibonacci number
    of the sequence 0, 1, 1, 2, ...; it returns [[]] at 0, [[0]] at 1 and
    [[0,1,1,2,3,5,8,13,21,34]] at 10. *)
Theorem generate_fibonacci_spec :
  (forall n, n < 0 ->
     generate_fibonacci n = Raise (ValueError "Number must be non-negative")) /\
  (forall n, 0 <= n ->
     exists series,
       generate_fibonacci n = Return series /\
       Z.of_nat (List.length series) = n /\
       forall i, (i < List.length series)%nat -> nth_error series i = Some (fib i)) /\
  generate_fibonacci 0 = Return [] /\
  generate_fibonacci 1 = Return [0] /\
  generate_fibonacci 10 = Return [0; 1; 1; 2; 3; 5; 8; 13; 21; 34].
Proof.
  split; [|split; [|repeat split]].
  - intros n Hn. unfold generate_fibonacci.
    destruct (Z.ltb_spec n 0); [reflexivity|lia].
  - intros n Hn. exists (List.map fib (seq 0 (Z.to_nat n))).
    split; [now apply generate_fibonacci_nonneg|].
    rewrite length_map, length_seq. split; [lia|].
    intros i Hi. rewrite nth_error_map, nth_error_seq.
    destruct (Nat.ltb_spec i (Z.to_nat n)); [reflexivity|lia].
Qed.

Lemma generate_fibonacci_spec_witness :
  generate_fibonacci (-3) = Raise (ValueError "Number must be non-negative") /\
  exists series,
    generate_fibonacci 7 = Return series /\
    Z.of_nat (List.length series) = 7 /\
    forall i, (i < List.length series)%nat -> nth_error series i = Some (fib i).
Proof.
  split.
  - apply (proj1 generate_fibonacci_spec). lia.
  - apply (proj1 (proj2 generate_fibonacci_spec)). lia.
Defined.

(** ** HCF and LCM *)

Lemma reduce_from_gcd (xs : list Z) :
  forall x, reduce_from (fun a b => Return (gcd a b)) x xs = Return (fold_left Z.gcd xs x).
Proof.
  induction xs as [|y ys IH]; intros x; simpl; [reflexivity|apply IH].
Qed.

Lemma fold_left_gcd_nonneg (xs : list Z) :
  forall x, 0 <= x -> 0 <= fold_left Z.gcd xs x.
Proof.
  induction xs as [|y ys IH]; intros x Hx; simpl; [assumption|].
  apply IH, Z.gcd_nonneg.
Qed.

(** C7: [calculate_hcf] raises a [ValueError] on the empty list; on a
    non-empty list it returns [gcd] folded left-to-right over the elements;
    [hcf([12,18]) = 6] and [hcf([12,18,30]) = 6]. *)
Theorem calculate_hcf_spec :
  (exists msg, calculate_hcf [] = Raise (ValueError msg)) /\
  (forall x xs, calculate_hcf (x :: xs) = Return (fold_left Z.gcd xs x)) /\
  calculate_hcf [12; 18] = Return 6 /\
  calculate_hcf [12; 18; 30] = Return 6.
Proof.
  split; [|split; [|split]].
  - eexists. reflexivity.
  - intros x xs. exact (reduce_from_gcd xs x).
  - reflexivity.
  - reflexivity.
Qed.

Lemma gcd_zero_iff (a b : Z) : gcd a b = 0 <-> a = 0 /\ b = 0.
Proof.
  unfold gcd. split.
  - intros H. split; [exact (Z.gcd_eq_0_l a b H)|exact (Z.gcd_eq_0_r a b H)].
  - intros [-> ->]. reflexivity.
Qed.

Lemma lcm_cases (a b : Z) :
  (a = 0 /\ b = 0 /\ Utils.lcm a b = Raise ZeroDivisionError) \/
  (~ (a = 0 /\ b = 0) /\ Utils.lcm a b = Return (lcm_formula a b) /\
   0 <= lcm_formula a b /\ (lcm_formula a b = 0 <-> a = 0 \/ b = 0)).
Proof.
  unfold Utils.lcm, floordiv, lcm_formula.
  destruct (Z.eqb_spec (gcd a b) 0) as [Hz|Hnz].
  - left. apply gcd_zero_iff in Hz. tauto.
  - right. assert (Hpos : 0 < Z.gcd a b).
    { pose proof (Z.gcd_nonneg a b). unfold gcd in Hnz. lia. }
    split; [rewrite <- gcd_zero_iff; assumption|].
    split; [reflexivity|]. split.
    + apply Z.div_pos; [apply Z.abs_nonneg|assumption].
    + split.
      * intros Hq. destruct (Z.eq_dec a 0) as [|Ha]; [now left|].
        destruct (Z.eq_dec b 0) as [|Hb]; [now right|]. exfalso.
        assert (Hle : Z.gcd a b <= Z.abs a).
        { apply Z.divide_pos_le; [lia|].
          apply Z.divide_abs_r, Z.gcd_divide_l. }
        assert (Hab : Z.abs a <= Z.abs (a * b)).
        { rewrite Z.abs_mul. nia. }
        apply Z.div_small_iff in Hq; [|lia].
        assert (0 < Z.abs a) by lia. lia.
      * intros [Hz | Hz]; rewrite Hz in *;
          rewrite ?Z.mul_0_l, ?Z.mul_0_r; change (Z.abs 0) with 0;
          apply Z.div_0_l; lia.
Qed.

(** The reduction of [calculate_lcm] divides by zero exactly when the
    running value and the next element are both zero, that is when the
    list holds two zeros. *)
Lemma reduce_from_lcm_cases (it : list Z) :
  forall value,
    (reduce_from Utils.lcm value it = Raise ZeroDivisionError /\
     (2 <= (if Z.eq_dec value 0 then 1 else 0) + zeros it)%nat) \/
    (reduce_from Utils.lcm value it = Return (fold_left lcm_formula it value) /\
     ((if Z.eq_dec value 0 then 1 else 0) + zeros it < 2)%nat).
Proof.
  unfold zeros.
  induction it as [|element it IH]; intros value.
  - right. simpl. split; [reflexivity|]. destruct (Z.eq_dec value 0); lia.
  - cbn [reduce_from fold_left count_occ].
    destruct (lcm_cases value element)
      as [(-> & -> & Hraise) | (Hnot & Hret & _ & Hzero)].
    + left. rewrite Hraise. split; [reflexivity|]. simpl. lia.
    + rewrite Hret. cbn [bind].
      assert (Hcount :
        ((if Z.eq_dec (lcm_formula value element) 0 then 1 else 0) =
         (if Z.eq_dec value 0 then 1 else 0)
         + (if Z.eq_dec element 0 then 1 else 0))%nat).
      { destruct (Z.eq_dec (lcm_formula value element) 0) as [Hq|Hq];
          destruct (Z.eq_dec value 0); destruct (Z.eq_dec element 0);
          try reflexivity; tauto. }
      destruct (IH (lcm_formula value element)) as [[Hr Hc]|[Hr Hc]].
      * left. split; [exact Hr|]. rewrite Hcount in Hc.
        destruct (Z.eq_dec element 0); lia.
      * right. split; [exact Hr|]. rewrite Hcount in Hc.
        destruct (Z.eq_dec element 0); lia.
Qed.

Lemma calculate_lcm_cases (x : Z) (xs : list Z) :
  (calculate_lcm (x :: xs) = Raise ZeroDivisionError /\ (2 <= zeros (x :: xs))%nat) \/
  (calculate_lcm (x :: xs) = Return (fold_left lcm_formula xs x) /\
   (zeros (x :: xs) < 2)%nat).
Proof.
  assert (Hz : zeros (x :: xs) = ((if Z.eq_dec x 0 then 1 else 0) + zeros xs)%nat).
  { unfold zeros. simpl. destruct (Z.eq_dec x 0); reflexivity. }
  rewrite Hz. exact (reduce_from_lcm_cases xs x).
Qed.

(** With at most one zero among the elements the division is always
    defined and the result is the left-to-right fold of the formula. *)
Lemma calculate_lcm_fold (x : Z) (xs : list Z) :
  (zeros (x :: xs) < 2)%nat ->
  calculate_lcm (x :: xs) = Return (fold_left lcm_formula xs x).
Proof.
  intros H. destruct (calculate_lcm_cases x xs) as [[_ H2]|[Hr _]]; [lia|exact Hr].
Qed.

Lemma calculate_lcm_nonneg (a b : Z) (rest : list Z) (r : Z) :
  calculate_lcm (a :: b :: rest) = Return r -> 0 <= r.
Proof.
  intros H. destruct (calculate_lcm_cases a (b :: rest)) as [[Hr _]|[Hr _]];
    rewrite Hr in H; [discriminate|].
  injection H as <-. simpl.
  assert (Hfold : forall l v, 0 <= v -> 0 <= fold_left lcm_formula l v).
  { induction l as [|y l IH]; intros v Hv; simpl; [assumption|].
    apply IH. unfold lcm_formula.
    apply Z_div_nonneg_nonneg; [apply Z.abs_nonneg|apply Z.gcd_nonneg]. }
  apply Hfold. unfold lcm_formula.
  apply Z_div_nonneg_nonneg; [apply Z.abs_nonneg|apply Z.gcd_nonneg].
Qed.

(** C3: the claim that the divisor [gcd(a, b)] is never zero fails on the
    code: on [[0, 0]], and on [[3, 0, 0]] once the running value has become
    zero, the divisor is [gcd(0, 0) = 0] and the division raises
    [ZeroDivisionError]. *)
Theorem calculate_lcm_divides_by_zero :
  gcd 0 0 = 0 /\
  Utils.lcm 0 0 = Raise ZeroDivisionError /\
  calculate_lcm [0; 0] = Raise ZeroDivisionError /\
  calculate_lcm [3; 0; 0] = Raise ZeroDivisionError.
Proof. repeat split. Qed.

(** C6: [calculate_lcm] raises a [ValueError] on the empty list and
    returns 12 on [[4,6]] and 105 on [[3,5,7]], but it does not return an
    integer on every non-empty list: on [[0, 0, 5]] the pairwise formula
    divides by [gcd(0,0) = 0] and the call raises [ZeroDivisionError]. *)
Theorem calculate_lcm_examples :
  calculate_lcm [] = Raise (ValueError "List cannot be empty") /\
  calculate_lcm [4; 6] = Return 12 /\
  calculate_lcm [3; 5; 7] = Return 105 /\
  calculate_lcm [0; 0; 5] = Raise ZeroDivisionError.
Proof. repeat split. Qed.

(** C10: on a single-element list [[n]] both [calculate_lcm] and
    [calculate_hcf] return [n] itself, so a negative [n] gives a negative
    result, whereas every result returned for a list of two or more
    elements is non-negative. *)
Theorem single_element_returns_itself :
  forall n : Z,
    (forall function : Z -> Z -> outcome Z, reduce function [n] = Return n) /\
    calculate_lcm [n] = Return n /\
    calculate_hcf [n] = Return n /\
    (n < 0 ->
     exists r, calculate_lcm [n] = Return r /\ calculate_hcf [n] = Return r /\ r < 0) /\
    (forall a b rest r, calculate_lcm (a :: b :: rest) = Return r -> 0 <= r) /\
    (forall a b rest,
       exists r, calculate_hcf (a :: b :: rest) = Return r /\ 0 <= r).
Proof.
  intros n. split; [reflexivity|]. split; [reflexivity|].
  split; [reflexivity|]. split; [|split].
  - intros Hn. exists n. repeat split. exact Hn.
  - exact calculate_lcm_nonneg.
  - intros a b rest. exists (fold_left Z.gcd (b :: rest) a).
    split; [exact (reduce_from_gcd (b :: rest) a)|].
    simpl. apply fold_left_gcd_nonneg, Z.gcd_nonneg.
Qed.

Lemma single_element_returns_itself_witness :
  (exists r, calculate_lcm [-4] = Return r /\ calculate_hcf [-4] = Return r /\ r < 0) /\
  0 <= 12.
Proof.
  destruct (single_element_returns_itself (-4)) as (_ & _ & _ & Hneg & Hlcm & _).
  split.
  - apply Hneg. lia.
  - apply (Hlcm 4 6 [] 12). reflexivity.
Defined.

(** ** Primes *)

Lemma range_In (lo hi i : Z) : In i (range lo hi) <-> lo <= i < hi.
Proof.
  unfold range. rewrite in_map_iff. split.
  - intros (k & <- & Hk). apply in_seq in Hk. lia.
  - intros H. exists (Z.to_nat (i - lo)). split; [lia|].
    apply in_seq. lia.
Qed.

Lemma no_divisor_true (x : Z) (candidates : list Z) :
  no_divisor x candidates = true <->
  forall i, In i candidates -> x mod i <> 0.
Proof.
  induction candidates as [|c rest IH]; simpl.
  - split; [intros _ i []|reflexivity].
  - destruct (Z.eqb_spec (x mod c) 0) as [Hz|Hnz].
    + split; [discriminate|]. intros H. exfalso. apply (H c); auto.
    + rewrite IH. split.
      * intros H i [<-|Hi]; auto.
      * intros H i Hi. apply H. now right.
Qed.

(** Trial division up to any bound between the integer square root and
    the number itself decides primality. *)
Lemma trial_division_prime (x r : Z) :
  2 <= x -> Z.sqrt x <= r < x ->
  (no_divisor x (range 2 (r + 1)) = true <-> Znumtheory.prime x).
Proof.
  intros Hx Hr. rewrite no_divisor_true. split.
  - intros Hnone. destruct (prime_dec x) as [Hp|Hnp]; [exact Hp|exfalso].
    destruct (not_prime_divide x ltac:(lia) Hnp) as (n & Hn & q & Hq).
    pose proof (Z.sqrt_spec x ltac:(lia)) as Hs. cbv zeta in Hs.
    pose proof (Z.sqrt_nonneg x) as Hs0.
    assert (Hq1 : 1 < q) by nia.
    destruct (Z_le_gt_dec n (Z.sqrt x)) as [Hle|Hgt].
    + apply (Hnone n); [apply range_In; lia|].
      rewrite Hq. apply Z.mod_mul. lia.
    + destruct (Z_le_gt_dec q (Z.sqrt x)) as [Hle'|Hgt']; [|nia].
      apply (Hnone q); [apply range_In; lia|].
      rewrite Hq, Z.mul_comm. apply Z.mod_mul. lia.
  - intros Hp i Hi Hmod. apply range_In in Hi.
    assert (Hdiv : (i | x)) by (apply Z.mod_divide; lia).
    destruct Hp as [_ Hrel]. destruct (Hrel i ltac:(lia)) as [_ _ Hone].
    specialize (Hone i (Z.divide_refl i) Hdiv).
    apply Z.divide_1_r in Hone. lia.
Qed.

Lemma is_prime_correct (x : Z) :
  (2 <= x -> accurate_sqrt x) ->
  is_prime x = Return (is_prime_number x).
Proof.
  intros Hacc. unfold is_prime, is_prime_number.
  destruct (Z.ltb_spec x 2) as [Hlt|Hge].
  - destruct (prime_dec x) as [Hp|_]; [|reflexivity].
    destruct Hp as [H1 _]. lia.
  - destruct (Hacc Hge) as (r & -> & Hr). cbn [bind]. f_equal.
    pose proof (trial_division_prime x r Hge Hr) as Hiff.
    destruct (prime_dec x) as [Hp|Hnp].
    + now apply Hiff.
    + destruct (no_divisor x (range 2 (r + 1))); [|reflexivity].
      exfalso. apply Hnp, Hiff. reflexivity.
Qed.

(** Whenever the floating-point bound is usable on every element,
    [get_primes] returns exactly the primes of a non-empty list, in order. *)
Lemma get_primes_correct (numbers : list Z) :
  numbers <> [] ->
  (forall x, In x numbers -> 2 <= x -> accurate_sqrt x) ->
  get_primes numbers = Return (List.filter is_prime_number numbers).
Proof.
  intros Hne Hacc.
  assert (H : primes_of numbers = Return (List.filter is_prime_number numbers)).
  { clear Hne. induction numbers as [|num rest IH]; [reflexivity|].
    cbn [primes_of List.filter].
    rewrite (is_prime_correct num) by (apply Hacc; now left).
    cbn [bind]. rewrite IH by (intros x Hx; apply Hacc; now right).
    reflexivity. }
  destruct numbers; [contradiction|exact H].
Qed.

(** *** The floating-point bound on integers below 2^53

    Below 2^53 the conversion to a float is exact and the rounded square
    root, truncated, is the integer square root or its successor. *)

Lemma digits2_pos_log2 (p : positive) :
  Z.pos (digits2_pos p) = Z.log2 (Z.pos p) + 1.
Proof.
  induction p as [p IH|p IH|]; cbn [digits2_pos]; rewrite ?Pos2Z.inj_succ, ?IH.
  - change (Z.pos p~1) with (2 * Z.pos p + 1).
    rewrite Z.log2_succ_double by lia. lia.
  - change (Z.pos p~0) with (2 * Z.pos p). rewrite Z.log2_double by lia. lia.
  - reflexivity.
Qed.


Lemma Zdigits2_53 (m : Z) : 2 ^ 52 <= m < 2 ^ 53 -> Zdigits2 m = 53.
Proof.
  intros H. destruct m as [|p|p]; try lia.
  cbn [Zdigits2]. rewrite digits2_pos_log2.
  rewrite (Z.log2_unique (Z.pos p) 52); lia.
Qed.

Lemma loc_roundtrip (m : Z) (l : location) :
  loc_of_shr_record (shr_record_of_loc m l) = l /\
  shr_m (shr_record_of_loc m l) = m.
Proof. destruct l as [|[]]; split; reflexivity. Qed.

Lemma round_nearest_even_cases (m : Z) (l : location) :
  round_nearest_even m l = m \/ round_nearest_even m l = m + 1.
Proof. destruct l as [|[]]; cbn; auto. destruct (Z.even m); auto. Qed.

Lemma binary_round_aux_53 (m e : Z) (l : location) :
  2 ^ 52 <= m < 2 ^ 53 -> -1074 <= e <= 970 ->
  binary_round_aux prec emax false m e l =
  if round_nearest_even m l <? 2 ^ 53
  then S754_finite false (Z.to_pos (round_nearest_even m l)) e
  else S754_finite false (Z.to_pos (2 ^ 52)) (e + 1).
Proof.
  intros Hm He. unfold binary_round_aux, shr_fexp.
  rewrite (Zdigits2_53 m Hm).
  replace (fexp prec emax (53 + e) - e) with 0
    by (unfold fexp, emin, prec, emax; lia).
  cbn [shr]. destruct (loc_roundtrip m l) as [-> ->].
  destruct (Z.ltb_spec (round_nearest_even m l) (2 ^ 53)) as [Hlt|Hge].
  - assert (Hn : 2 ^ 52 <= round_nearest_even m l < 2 ^ 53).
    { destruct (round_nearest_even_cases m l) as [H|H]; rewrite H in *; lia. }
    rewrite (Zdigits2_53 _ Hn).
    replace (fexp prec emax (53 + e) - e) with 0
      by (unfold fexp, emin, prec, emax; lia).
    cbn [shr shr_record_of_loc shr_m].
    destruct (round_nearest_even m l) as [|p|p] eqn:Hp; try lia.
    change (emax - prec) with 971.
    destruct (Z.leb_spec e 971) as [_|Hbad]; [reflexivity|lia].
  - assert (Heq : round_nearest_even m l = 2 ^ 53).
    { destruct (round_nearest_even_cases m l) as [H|H]; rewrite H in *; lia. }
    rewrite Heq. change (Zdigits2 (2 ^ 53)) with 54.
    replace (fexp prec emax (54 + e) - e) with 1
      by (unfold fexp, emin, prec, emax; lia).
    cbn. destruct (Z.leb_spec (e + 1) 971) as [_|Hbad]; [reflexivity|lia].
Qed.


Lemma float_sqrt_53 (mz : positive) (ez : Z) :
  2 ^ 52 <= Z.pos mz < 2 ^ 53 -> -52 <= ez <= 0 ->
  exists n,
    (n = Z.sqrt (Z.pos mz * 2 ^ (ez - 2 * (ez / 2 - 26))) \/
     n = Z.sqrt (Z.pos mz * 2 ^ (ez - 2 * (ez / 2 - 26))) + 1) /\
    2 ^ 52 <= n <= 2 ^ 53 /\
    float_sqrt (S754_finite false mz ez) =
    if n <? 2 ^ 53
    then S754_finite false (Z.to_pos n) (ez / 2 - 26)
    else S754_finite false (Z.to_pos (2 ^ 52)) (ez / 2 - 26 + 1).
Proof.
  intros Hm He. unfold float_sqrt, SFsqrt, SFsqrt_core_binary.
  rewrite (Zdigits2_53 _ Hm), !Z.div2_div.
  change IntDef.Z.min with Z.min.
  replace (Z.min (fexp prec emax ((53 + ez + 1) / 2)) (ez / 2)) with (ez / 2 - 26)
    by (unfold fexp, emin, prec, emax; change IntDef.Z.max with Z.max;
        Z.div_mod_to_equations; lia).
  set (e' := ez / 2 - 26).
  assert (He' : -52 <= e' <= -26) by (unfold e'; Z.div_mod_to_equations; lia).
  assert (Hs : ez - 2 * e' = 52 \/ ez - 2 * e' = 53)
    by (unfold e'; Z.div_mod_to_equations; lia).
  set (s := ez - 2 * e') in *.
  assert (Hshift : match s with
                   | 0 => Z.pos mz
                   | Z.pos _ => Z.shiftl (Z.pos mz) s
                   | Z.neg _ => 0
                   end = Z.pos mz * 2 ^ s).
  { destruct s; try lia. apply Z.shiftl_mul_pow2. lia. }
  rewrite Hshift. set (m' := Z.pos mz * 2 ^ s).
  assert (Hm' : 2 ^ 52 * 2 ^ 52 <= m' < 2 ^ 53 * 2 ^ 53).
  { unfold m'. destruct Hs as [-> | ->].
    - change (2 ^ 53 * 2 ^ 53) with (2 * 2 ^ 53 * 2 ^ 52). nia.
    - change (2 ^ 52 * 2 ^ 52) with (2 ^ 51 * 2 ^ 53). nia. }
  pose proof (Z.sqrtrem_sqrt m') as Hfst.
  destruct (Z.sqrtrem m') as [q r]. cbn [fst] in Hfst. subst q.
  assert (Hq : 2 ^ 52 <= Z.sqrt m' < 2 ^ 53).
  { split.
    - apply Z.sqrt_le_square; lia.
    - apply Z.sqrt_lt_square; lia. }
  set (l := if r =? 0 then loc_Exact else loc_Inexact (if r <=? Z.sqrt m' then Lt else Gt)).
  rewrite binary_round_aux_53 by lia.
  exists (round_nearest_even (Z.sqrt m') l).
  split; [apply round_nearest_even_cases|].
  split; [|reflexivity].
  destruct (round_nearest_even_cases (Z.sqrt m') l) as [H|H]; rewrite H; lia.
Qed.


(** The correctly rounded square root and the root rounded down both have
    the accuracy [within_one_ulp]. *)
Lemma float_sqrt_within_one_ulp : within_one_ulp float_sqrt.
Proof.
  intros mz ez Hm He.
  destruct (float_sqrt_53 mz ez Hm He) as (n & Hn & _ & Heq).
  exists n. split; assumption.
Qed.





(** The model of [get_primes] is the instance at the correctly rounded
    square root. *)
Lemma get_primes_with_float_sqrt (numbers : list Z) :
  get_primes_with float_sqrt numbers = get_primes numbers.
Proof.
  destruct numbers as [|num rest]; [reflexivity|].
  unfold get_primes_with, get_primes.
  induction (num :: rest) as [|x l IH]; [reflexivity|].
  cbn [primes_of_with primes_of]. now rewrite IH.
Qed.

(** Integers below 2 are rejected before any float is computed. *)
Lemma is_prime_below_2 (x : Z) : x < 2 -> is_prime x = Return false.
Proof.
  intros Hx. unfold is_prime.
  destruct (Z.ltb_spec x 2); [reflexivity|lia].
Qed.

(** C5: [get_primes] raises a [ValueError] on the empty list and returns
    [[2,3,5,11]] on [[2,3,4,5,9,11]], but it does not return the primes of
    every non-empty list: on [[2 ^ 1024]] the conversion to a float in
    [x ** 0.5] raises [OverflowError] and no list is returned. *)
Theorem get_primes_examples :
  get_primes [] = Raise (ValueError "List cannot be empty") /\
  get_primes [2; 3; 4; 5; 9; 11] = Return [2; 3; 5; 11] /\
  get_primes [2 ^ 1024] = Raise OverflowError /\
  get_primes [7; 2 ^ 1024] = Raise OverflowError.
Proof. repeat split; vm_compute; reflexivity. Qed.

(** ** The route: validation and envelope *)

(** C2: when the number of present fields among [fibonacci], [prime],
    [lcm], [hcf] and [AI] is not exactly one, the route answers with status
    400 and the error "Exactly one key must be provided", and it calls no
    utility and no fetcher. *)
Theorem exactly_one_key_required :
  forall (w : world) (request : BFHLRequest),
    present_count request <> 1%nat ->
    fst (process_request w request) = [] /\
    status_of (snd (process_request w request)) = 400 /\
    envelope_of (snd (process_request w request)) =
      error_envelope "Exactly one key must be provided" /\
    dict_get (envelope_of (snd (process_request w request))) "error" =
      Some (PyStr "Exactly one key must be provided").
Proof.
  intros w [[n|] [p|] [l|] [h|] [a|]] Hcount;
    cbv [present_count present fibonacci prime Api.lcm hcf AI] in Hcount;
    try (exfalso; apply Hcount; reflexivity);
    repeat split.
Qed.

Lemma exactly_one_key_required_witness :
  fst (process_request world_without_key
         {| fibonacci := Some 5; prime := Some [2; 3]; lcm := None;
            hcf := None; AI := None |}) = [] /\
  status_of (snd (process_request world_without_key
         {| fibonacci := None; prime := None; lcm := None;
            hcf := None; AI := None |})) = 400.
Proof.
  split.
  - apply (exactly_one_key_required world_without_key
             {| fibonacci := Some 5; prime := Some [2; 3]; lcm := None;
                hcf := None; AI := None |}).
    cbv. discriminate.
  - apply (exactly_one_key_required world_without_key
             {| fibonacci := None; prime := None; lcm := None;
                hcf := None; AI := None |}).
    cbv. discriminate.
Defined.

(** Every way the handler ends carries one of the two envelope shapes. *)
Lemma process_request_shape (w : world) (request : BFHLRequest) :
  (exists data,
     snd (process_request w request) =
     Returned [ ("is_success", PyBool true);
                ("official_email", PyStr OFFICIAL_EMAIL);
                ("data", data) ]) \/
  (exists status message,
     snd (process_request w request) =
     HTTPException status (error_envelope message)).
Proof.
  unfold process_request.
  destruct (negb (Nat.eqb (List.length (provided_keys request)) 1)).
  - right. eexists _, _. reflexivity.
  - set (key := nth 0 (provided_keys request) EmptyString).
    set (value := getattr request key).
    assert (Hshape : forall (trace : list event) (data : outcome pyobj),
      (exists d,
         snd (trace,
              match data with
              | Return data =>
                  Returned [ ("is_success", PyBool true);
                             ("official_email", PyStr OFFICIAL_EMAIL);
                             ("data", data) ]
              | Raise e =>
                  if is_ValueError e
                  then HTTPException 400 (error_envelope (str e))
                  else HTTPException 500 (error_envelope "Internal server error")
              end) =
         Returned [ ("is_success", PyBool true);
                    ("official_email", PyStr OFFICIAL_EMAIL);
                    ("data", d) ]) \/
      (exists status message,
         snd (trace,
              match data with
              | Return data =>
                  Returned [ ("is_success", PyBool true);
                             ("official_email", PyStr OFFICIAL_EMAIL);
                             ("data", data) ]
              | Raise e =>
                  if is_ValueError e
                  then HTTPException 400 (error_envelope (str e))
                  else HTTPException 500 (error_envelope "Internal server error")
              end) =
         HTTPException status (error_envelope message))).
    { intros trace [d|e]; cbn [snd].
      - left. eexists. reflexivity.
      - right. destruct (is_ValueError e); eexists _, _; reflexivity. }
    repeat match goal with
           | |- context [if String.eqb key ?k then _ else _] =>
               destruct (String.eqb key k)
           end;
      unfold call;
      first [ apply Hshape
            | exact (Hshape [] (Raise (ValueError "Invalid key"))) ].
Qed.


(** ** The fetcher and its failures *)

Lemma process_request_ai (w : world) (question : string) :
  process_request w (ai_request question) =
  ([Called "ask_gemini" (PyStr question)],
   match ask_gemini w question with
   | Return word =>
       Returned [ ("is_success", PyBool true);
                  ("official_email", PyStr OFFICIAL_EMAIL);
                  ("data", PyStr word) ]
   | Raise e =>
       if is_ValueError e then HTTPException 400 (error_envelope (str e))
       else HTTPException 500 (error_envelope "Internal server error")
   end).
Proof.
  unfold process_request, ai_request. cbn -[ask_gemini].
  destruct (ask_gemini w question); reflexivity.
Qed.

(** C1 (as stated, refuted): with no credential, and with a remote
    service answering 503, the route does not answer with the generic
    500 envelope. *)
Lemma ai_failures_not_generic_500 :
  ~ generic_500 (snd (process_request world_without_key (ai_request "capital?"))) /\
  ~ generic_500 (snd (process_request world_unavailable (ai_request "capital?"))).
Proof.
  split; intros [Hstatus _]; vm_compute in Hstatus; discriminate.
Qed.

(** C1 (amended): for the [AI] field, a missing credential and a remote
    call that returns a status other than 200 both raise a [ValueError],
    so the route answers with status 400 and the envelope's error is the
    original text, "AI API key not configured" or "AI service error". *)
Theorem ai_failures_answer_400 :
  forall (w : world) (question : string),
    (not_key (GEMINI_API_KEY w) = true ->
     snd (process_request w (ai_request question)) =
     HTTPException 400 (error_envelope "AI API key not configured")) /\
    (forall response,
       not_key (GEMINI_API_KEY w) = false ->
       requests_post w (request_url w) request_headers (request_body question)
         = Return response ->
       status_code response <> 200 ->
       snd (process_request w (ai_request question)) =
       HTTPException 400 (error_envelope "AI service error")).
Proof.
  intros w question. rewrite process_request_ai. cbn [snd].
  unfold ask_gemini. split.
  - intros ->. reflexivity.
  - intros response -> -> Hstatus. cbn [bind].
    destruct (Z.eqb_spec (status_code response) 200); [contradiction|].
    reflexivity.
Qed.

Lemma ai_failures_answer_400_witness :
  snd (process_request world_without_key (ai_request "capital?")) =
    HTTPException 400 (error_envelope "AI API key not configured") /\
  snd (process_request world_unavailable (ai_request "capital?")) =
    HTTPException 400 (error_envelope "AI service error").
Proof.
  split.
  - apply (proj1 (ai_failures_answer_400 world_without_key "capital?")).
    reflexivity.
  - apply (proj2 (ai_failures_answer_400 world_unavailable "capital?")
             {| status_code := 503;
                json := Raise (JSONDecodeError "Expecting value") |}).
    + reflexivity.
    + reflexivity.
    + cbn. lia.
Defined.

(** *** Splitting and trimming *)

Lemma append_empty_r (s : string) : (s ++ EmptyString)%string = s.
Proof. induction s as [|c s IH]; simpl; [reflexivity|now rewrite IH]. Qed.

Lemma append_char_assoc (w t : string) (c : ascii) :
  ((w ++ String c EmptyString) ++ t)%string = (w ++ String c t)%string.
Proof. induction w as [|d w IH]; simpl; [reflexivity|now rewrite IH]. Qed.

Lemma split_from_word (s : string) :
  forall w, exists rest,
    split_from s (Some w) = (w ++ first_word s)%string :: rest.
Proof.
  induction s as [|c s IH]; intros w; simpl.
  - exists []. now rewrite append_empty_r.
  - destruct (isspace c).
    + eexists. now rewrite append_empty_r.
    + destruct (IH (w ++ String c EmptyString)%string) as [rest ->].
      exists rest. now rewrite append_char_assoc.
Qed.

Lemma split_head (c : ascii) (s : string) :
  isspace c = false ->
  exists rest, split (String c s) = first_word (String c s) :: rest.
Proof.
  intros Hc. unfold split. simpl. rewrite Hc.
  destruct (split_from_word s (String c EmptyString)) as [rest ->].
  exists rest. reflexivity.
Qed.

Lemma lstrip_head (t : string) (c : ascii) (s : string) :
  lstrip t = String c s -> isspace c = false.
Proof.
  induction t as [|d t IH]; simpl; [discriminate|].
  destruct (isspace d) eqn:Hd; [exact IH|].
  intros H. injection H as <- _. exact Hd.
Qed.

Lemma rstrip_head (t : string) (c : ascii) (s : string) :
  rstrip t = String c s -> exists s', t = String c s'.
Proof.
  destruct t as [|d t]; simpl; [discriminate|].
  destruct (rstrip t); [destruct (isspace d); [discriminate|]|];
    intros H; injection H as <- _; eexists; reflexivity.
Qed.

Lemma strip_head (t : string) (c : ascii) (s : string) :
  strip t = String c s -> isspace c = false.
Proof.
  unfold strip. intros H. destruct (rstrip_head _ _ _ H) as [s' Hs'].
  exact (lstrip_head t c s' Hs').
Qed.

Lemma first_item_strip (t : string) :
  (strip t <> EmptyString ->
   first_item (split (strip t)) = Return (first_word (strip t))) /\
  (strip t = EmptyString ->
   first_item (split (strip t)) = Raise IndexError).
Proof.
  split.
  - intros Hne. destruct (strip t) as [|c s] eqn:Hs; [contradiction|].
    destruct (split_head c s (strip_head t c s Hs)) as [rest ->].
    reflexivity.
  - intros ->. reflexivity.
Qed.

(** *** Walking the response body *)

Lemma answer_of_path (body : pyobj) :
  match candidate_answer body with
  | Some answer => answer_of body = Return answer
  | None => failed (answer_of body)
  end.
Proof.
  unfold candidate_answer, answer_of, failed.
  destruct body as [| | | | | |items]; cbn;
    try (eexists; split; reflexivity).
  destruct (dict_get items "candidates") as [candidates|]; cbn;
    [|eexists; split; reflexivity].
  destruct candidates as [| | | |[|c s]|[|candidate l]|]; cbn;
    try (eexists; split; reflexivity).
  destruct candidate as [| | | | | |items1]; cbn;
    try (eexists; split; reflexivity).
  destruct (dict_get items1 "content") as [content|]; cbn;
    [|eexists; split; reflexivity].
  destruct content as [| | | | | |items2]; cbn;
    try (eexists; split; reflexivity).
  destruct (dict_get items2 "parts") as [parts|]; cbn;
    [|eexists; split; reflexivity].
  destruct parts as [| | | |[|c s]|[|part l']|]; cbn;
    try (eexists; split; reflexivity).
  destruct part as [| | | | | |items3]; cbn;
    try (eexists; split; reflexivity).
  destruct (dict_get items3 "text") as [answer|]; cbn;
    [reflexivity|eexists; split; reflexivity].
Qed.

Lemma text_of_path (body : pyobj) :
  match candidate_text body with
  | Some text => (answer <- answer_of body ;; str_of answer) = Return text
  | None => failed (answer <- answer_of body ;; str_of answer)
  end.
Proof.
  unfold candidate_text. pose proof (answer_of_path body) as H.
  destruct (candidate_answer body) as [answer|].
  - rewrite H. cbn [bind].
    destruct answer; cbn; try reflexivity; eexists; split; reflexivity.
  - destruct H as (e & -> & He). exists e. split; [reflexivity|exact He].
Qed.

Lemma ask_gemini_success (w : world) (question : string)
      (response : Response) (body : pyobj) :
  not_key (GEMINI_API_KEY w) = false ->
  requests_post w (request_url w) request_headers (request_body question)
    = Return response ->
  status_code response = 200 ->
  json response = Return body ->
  ask_gemini w question =
  (text <- (answer <- answer_of body ;; str_of answer) ;;
   first_item (split (strip text))).
Proof.
  intros Hkey Hpost Hstatus Hjson. unfold ask_gemini.
  rewrite Hkey, Hpost. cbn [bind]. rewrite Hstatus, Hjson. cbn.
  destruct (answer_of body); reflexivity.
Qed.

(** A 200 answer whose body is not JSON makes [.json()] raise a
    [JSONDecodeError], which belongs to the [ValueError] family: the route
    answers 400 with the decoder's message. *)
Lemma undecodable_body_answers_400 (w : world) (question : string)
      (response : Response) (msg : string) :
  not_key (GEMINI_API_KEY w) = false ->
  requests_post w (request_url w) request_headers (request_body question)
    = Return response ->
  status_code response = 200 ->
  json response = Raise (JSONDecodeError msg) ->
  snd (process_request w (ai_request question)) =
  HTTPException 400 (error_envelope msg).
Proof.
  intros Hkey Hpost Hstatus Hjson. rewrite process_request_ai. cbn [snd].
  unfold ask_gemini. rewrite Hkey, Hpost. cbn [bind].
  rewrite Hstatus, Hjson. reflexivity.
Qed.

(** C8 (as stated, refuted): a 200 answer whose body does not decode as
    JSON is a malformed response without any candidate; [ask_gemini] fails
    on it, but the failure is a [JSONDecodeError], of the [ValueError]
    family, and the route answers with status 400 and the decoder's text,
    not with the generic internal error. *)
Lemma undecodable_body_not_generic_500 :
  ask_gemini world_undecodable "capital?" =
    Raise (JSONDecodeError "Expecting value: line 1 column 1 (char 0)") /\
  snd (process_request world_undecodable (ai_request "capital?")) =
    HTTPException 400
      (error_envelope "Expecting value: line 1 column 1 (char 0)") /\
  ~ generic_500 (snd (process_request world_undecodable (ai_request "capital?"))).
Proof.
  split; [reflexivity|]. split; [reflexivity|].
  intros [Hstatus _]. vm_compute in Hstatus. discriminate.
Qed.

(** C8 (amended): when the remote call succeeds (credential configured,
    status 200) with a body that decodes as JSON, [ask_gemini] returns the
    first whitespace-delimited word of the trimmed text found at
    [candidates[0].content.parts[0].text]; when the decoded body has no
    string at that path (missing candidate, missing text field), or the
    text holds no word, [ask_gemini] fails with an exception outside the
    [ValueError] family and the route answers with status 500 and the
    generic message instead of a defaulted value. *)
Theorem ask_gemini_first_word :
  forall (w : world) (question : string) (response : Response) (body : pyobj),
    not_key (GEMINI_API_KEY w) = false ->
    requests_post w (request_url w) request_headers (request_body question)
      = Return response ->
    status_code response = 200 ->
    json response = Return body ->
    (forall text,
       candidate_text body = Some text -> strip text <> EmptyString ->
       ask_gemini w question = Return (first_word (strip text)) /\
       snd (process_request w (ai_request question)) =
       Returned [ ("is_success", PyBool true);
                  ("official_email", PyStr OFFICIAL_EMAIL);
                  ("data", PyStr (first_word (strip text))) ]) /\
    (candidate_text body = None \/
     (exists text, candidate_text body = Some text /\ strip text = EmptyString) ->
     failed (ask_gemini w question) /\
     snd (process_request w (ai_request question)) =
     HTTPException 500 (error_envelope "Internal server error")).
Proof.
  intros w question response body Hkey Hpost Hstatus Hjson.
  rewrite process_request_ai. cbn [snd].
  rewrite (ask_gemini_success w question response body Hkey Hpost Hstatus Hjson).
  pose proof (text_of_path body) as Hpath. split.
  - intros text Htext Hword. rewrite Htext in Hpath. rewrite Hpath. cbn [bind].
    rewrite (proj1 (first_item_strip text) Hword). split; reflexivity.
  - intros [Hnone|(text & Htext & Hblank)].
    + rewrite Hnone in Hpath. destruct Hpath as (e & -> & He). cbn [bind].
      rewrite He. split; [exists e; split; [reflexivity|exact He]|reflexivity].
    + rewrite Htext in Hpath. rewrite Hpath. cbn [bind].
      rewrite (proj2 (first_item_strip text) Hblank).
      split; [exists IndexError; split; reflexivity|reflexivity].
Qed.

Lemma ask_gemini_first_word_witness :
  ask_gemini (world_answering (body_with_text (PyStr "  Paris is the capital ")))
             "capital?" = Return "Paris" /\
  snd (process_request (world_answering (PyDict [("candidates", PyList [])]))
                       (ai_request "capital?")) =
    HTTPException 500 (error_envelope "Internal server error") /\
  snd (process_request (world_answering (body_with_text (PyStr "   ")))
                       (ai_request "capital?")) =
    HTTPException 500 (error_envelope "Internal server error").
Proof.
  split; [|split].
  - apply (proj1 (ask_gemini_first_word
                    (world_answering (body_with_text (PyStr "  Paris is the capital ")))
                    "capital?"
                    {| status_code := 200;
                       json := Return (body_with_text (PyStr "  Paris is the capital ")) |}
                    (body_with_text (PyStr "  Paris is the capital "))
                    eq_refl eq_refl eq_refl eq_refl)
                 "  Paris is the capital ").
    + reflexivity.
    + vm_compute. discriminate.
  - apply (proj2 (ask_gemini_first_word
                    (world_answering (PyDict [("candidates", PyList [])]))
                    "capital?"
                    {| status_code := 200;
                       json := Return (PyDict [("candidates", PyList [])]) |}
                    (PyDict [("candidates", PyList [])])
                    eq_refl eq_refl eq_refl eq_refl)).
    left. reflexivity.
  - apply (proj2 (ask_gemini_first_word
                    (world_answering (body_with_text (PyStr "   ")))
                    "capital?"
                    {| status_code := 200;
                       json := Return (body_with_text (PyStr "   ")) |}
                    (body_with_text (PyStr "   "))
                    eq_refl eq_refl eq_refl eq_refl)).
    right. exists "   ". split; reflexivity.
Defined.

(** ** Further properties of the utilities *)

Lemma firstn_seq_min (m : nat) :
  forall start len, firstn m (seq start len) = seq start (Nat.min m len).
Proof.
  induction m as [|m IH]; intros start [|len]; cbn; try reflexivity.
  now rewrite IH.
Qed.

(** X1: the series for a smaller count is the beginning of the series for
    a larger one: for [0 <= m <= n], the first [m] items of
    [generate_fibonacci n] are [generate_fibonacci m]. *)
Theorem generate_fibonacci_prefix :
  forall m n : Z,
    0 <= m <= n ->
    exists short long,
      generate_fibonacci m = Return short /\
      generate_fibonacci n = Return long /\
      firstn (Z.to_nat m) long = short.
Proof.
  intros m n Hmn.
  exists (List.map fib (seq 0 (Z.to_nat m))), (List.map fib (seq 0 (Z.to_nat n))).
  split; [apply generate_fibonacci_nonneg; lia|].
  split; [apply generate_fibonacci_nonneg; lia|].
  rewrite firstn_map, firstn_seq_min. f_equal. f_equal. lia.
Qed.

Lemma generate_fibonacci_prefix_witness :
  exists short long,
    generate_fibonacci 3 = Return short /\
    generate_fibonacci 8 = Return long /\
    firstn (Z.to_nat 3) long = short.
Proof. apply (generate_fibonacci_prefix 3 8). lia. Defined.

(** X2: in every series [generate_fibonacci] returns, the first item is
    0 and the second is 1, each item from the third on is the sum of the
    two items before it, no item is negative, and no item is smaller than
    the item before it. *)
Theorem generate_fibonacci_recurrence :
  forall (n : Z) (series : list Z),
    generate_fibonacci n = Return series ->
    (forall a, nth_error series 0 = Some a -> a = 0) /\
    (forall b, nth_error series 1 = Some b -> b = 1) /\
    (forall (i : nat) (a : Z), nth_error series i = Some a -> 0 <= a) /\
    (forall (i : nat) (a b : Z),
       nth_error series i = Some a ->
       nth_error series (S i) = Some b ->
       a <= b) /\
    (forall (i : nat) (a b c : Z),
       nth_error series i = Some a ->
       nth_error series (S i) = Some b ->
       nth_error series (S (S i)) = Some c ->
       c = a + b).
Proof.
  intros n series Hgen.
  assert (Hn : 0 <= n).
  { unfold generate_fibonacci in Hgen.
    destruct (Z.ltb_spec n 0); [discriminate|assumption]. }
  rewrite (generate_fibonacci_nonneg n Hn) in Hgen. injection Hgen as <-.
  assert (Hnth : forall j v,
            nth_error (List.map fib (seq 0 (Z.to_nat n))) j = Some v -> v = fib j).
  { intros j v Hj. rewrite nth_error_map, nth_error_seq in Hj.
    destruct (Nat.ltb j (Z.to_nat n)); simpl in Hj; congruence. }
  assert (Hpos : forall k, 0 <= fib k /\ 0 <= fib (S k)).
  { induction k as [|k [IH1 IH2]]; [cbn; lia|].
    split; [exact IH2|]. rewrite fib_step. lia. }
  assert (Hmono : forall k, fib k <= fib (S k)).
  { intros [|k]; [cbn; lia|]. rewrite fib_step. destruct (Hpos k). lia. }
  split; [|split; [|split; [|split]]].
  - intros a Ha. now rewrite (Hnth _ _ Ha).
  - intros b Hb. now rewrite (Hnth _ _ Hb).
  - intros i a Ha. rewrite (Hnth _ _ Ha). apply Hpos.
  - intros i a b Ha Hb. rewrite (Hnth _ _ Ha), (Hnth _ _ Hb). apply Hmono.
  - intros i a b c Ha Hb Hc.
    rewrite (Hnth _ _ Ha), (Hnth _ _ Hb), (Hnth _ _ Hc), fib_step. lia.
Qed.

Lemma generate_fibonacci_recurrence_witness :
  (forall a, nth_error [0; 1; 1; 2; 3; 5] 0 = Some a -> a = 0) /\
  (forall b, nth_error [0; 1; 1; 2; 3; 5] 1 = Some b -> b = 1) /\
  (forall (i : nat) (a : Z), nth_error [0; 1; 1; 2; 3; 5] i = Some a -> 0 <= a) /\
  (forall (i : nat) (a b : Z),
     nth_error [0; 1; 1; 2; 3; 5] i = Some a ->
     nth_error [0; 1; 1; 2; 3; 5] (S i) = Some b ->
     a <= b) /\
  (forall (i : nat) (a b c : Z),
     nth_error [0; 1; 1; 2; 3; 5] i = Some a ->
     nth_error [0; 1; 1; 2; 3; 5] (S i) = Some b ->
     nth_error [0; 1; 1; 2; 3; 5] (S (S i)) = Some c ->
     c = a + b).
Proof.
  apply (generate_fibonacci_recurrence 6 [0; 1; 1; 2; 3; 5]). reflexivity.
Defined.

(** *** HCF *)

Lemma fold_left_gcd_spec (xs : list Z) :
  forall x,
    let g := fold_left Z.gcd xs x in
    (g | x) /\ (forall y, In y xs -> (g | y)) /\
    (forall d, (d | x) -> (forall y, In y xs -> (d | y)) -> (d | g)).
Proof.
  induction xs as [|y ys IH]; intros x; cbn [fold_left].
  - split; [apply Z.divide_refl|]. split; [intros y []|]. intros d Hd _. exact Hd.
  - destruct (IH (Z.gcd x y)) as (Hg & Hall & Hgreatest).
    split; [|split].
    + eapply Z.divide_trans; [exact Hg|apply Z.gcd_divide_l].
    + intros z [<-|Hz]; [|now apply Hall].
      eapply Z.divide_trans; [exact Hg|apply Z.gcd_divide_r].
    + intros d Hdx Hdall. apply Hgreatest.
      * apply Z.gcd_greatest; [exact Hdx|apply Hdall; now left].
      * intros z Hz. apply Hdall. now right.
Qed.

(** X3: whatever [calculate_hcf] returns divides every element of the
    list, and every integer that divides all the elements divides it. *)
Theorem calculate_hcf_greatest_common_divisor :
  forall (numbers : list Z) (g : Z),
    calculate_hcf numbers = Return g ->
    (forall x, In x numbers -> (g | x)) /\
    (forall d, (forall x, In x numbers -> (d | x)) -> (d | g)).
Proof.
  intros [|x xs] g H; [discriminate|].
  change (calculate_hcf (x :: xs)) with
    (reduce_from (fun a b => Return (gcd a b)) x xs) in H.
  rewrite reduce_from_gcd in H. injection H as <-.
  destruct (fold_left_gcd_spec xs x) as (Hx & Hall & Hgreatest).
  split.
  - intros y [<-|Hy]; [exact Hx|now apply Hall].
  - intros d Hd. apply Hgreatest.
    + apply Hd. now left.
    + intros y Hy. apply Hd. now right.
Qed.

Lemma calculate_hcf_greatest_common_divisor_witness :
  (forall x, In x [12; 18; 30] -> (6 | x)) /\
  (forall d, (forall x, In x [12; 18; 30] -> (d | x)) -> (d | 6)).
Proof.
  apply (calculate_hcf_greatest_common_divisor [12; 18; 30] 6). reflexivity.
Defined.

Lemma fold_left_gcd_all (xs : list Z) :
  forall x, 0 <= x -> fold_left Z.gcd xs x = Z.gcd x (gcd_all xs).
Proof.
  induction xs as [|y ys IH]; intros x Hx; cbn [fold_left gcd_all fold_right].
  - rewrite Z.gcd_0_r, Z.abs_eq; [reflexivity|exact Hx].
  - rewrite IH by apply Z.gcd_nonneg. fold (gcd_all ys).
    symmetry. apply Z.gcd_assoc.
Qed.

Lemma gcd_all_permutation (l l' : list Z) :
  Permutation l l' -> gcd_all l = gcd_all l'.
Proof.
  induction 1 as [|x l l' _ IH|x y l|l l' l'' _ IH1 _ IH2];
    cbn [gcd_all fold_right] in *.
  - reflexivity.
  - fold (gcd_all l) (gcd_all l'). now rewrite IH.
  - rewrite !Z.gcd_assoc, (Z.gcd_comm y x). reflexivity.
  - now rewrite IH1.
Qed.

Lemma calculate_hcf_two_or_more (x y : Z) (rest : list Z) :
  calculate_hcf (x :: y :: rest) = Return (gcd_all (x :: y :: rest)).
Proof.
  change (calculate_hcf (x :: y :: rest)) with
    (reduce_from (fun a b => Return (gcd a b)) x (y :: rest)).
  rewrite reduce_from_gcd. cbn [fold_left gcd_all fold_right].
  rewrite fold_left_gcd_all by apply Z.gcd_nonneg.
  fold (gcd_all rest). now rewrite Z.gcd_assoc.
Qed.

(** X4: the order of the elements does not matter to [calculate_hcf]:
    two lists that are permutations of one another give the same outcome. *)
Theorem calculate_hcf_permutation :
  forall l l' : list Z,
    Permutation l l' -> calculate_hcf l = calculate_hcf l'.
Proof.
  intros l l' Hperm. pose proof (Permutation_length Hperm) as Hlen.
  destruct l as [|x [|y rest]].
  - apply Permutation_nil in Hperm. now subst.
  - apply Permutation_length_1_inv in Hperm. now subst.
  - destruct l' as [|x' [|y' rest']]; try discriminate Hlen.
    rewrite !calculate_hcf_two_or_more. f_equal.
    now apply gcd_all_permutation.
Qed.

Lemma calculate_hcf_permutation_witness :
  calculate_hcf [12; 18; 30] = calculate_hcf [30; 12; 18].
Proof.
  apply calculate_hcf_permutation.
  apply Permutation_sym, (Permutation_cons_app [12; 18] [] 30).
  apply Permutation_refl.
Defined.

(** *** LCM *)

Lemma lcm_formula_lcm (a b : Z) : lcm_formula a b = Z.lcm a b.
Proof.
  unfold lcm_formula, Z.lcm.
  destruct (Z.eq_dec (Z.gcd a b) 0) as [Hz|Hnz].
  - rewrite Hz. rewrite (Z.gcd_eq_0_l a b Hz). now rewrite !Z.div_0_r.
  - rewrite Z.lcm_equiv1 by exact Hnz.
    destruct (Z.gcd_divide_l a b) as [k Hk].
    assert (Hab : a * b = k * b * Z.gcd a b) by (rewrite Hk at 1; ring).
    rewrite Hab, Z.div_mul by exact Hnz.
    rewrite Z.abs_mul, (Z.abs_eq (Z.gcd a b)) by apply Z.gcd_nonneg.
    now rewrite Z.div_mul.
Qed.

Lemma fold_left_lcm_formula (xs : list Z) :
  forall x, fold_left lcm_formula xs x = fold_left Z.lcm xs x.
Proof.
  induction xs as [|y ys IH]; intros x; cbn [fold_left]; [reflexivity|].
  now rewrite lcm_formula_lcm, IH.
Qed.

Lemma fold_left_lcm_spec (xs : list Z) :
  forall x,
    let r := fold_left Z.lcm xs x in
    (x | r) /\ (forall y, In y xs -> (y | r)) /\
    (forall m, (x | m) -> (forall y, In y xs -> (y | m)) -> (r | m)).
Proof.
  induction xs as [|y ys IH]; intros x; cbn [fold_left].
  - split; [apply Z.divide_refl|]. split; [intros y []|]. intros m Hm _. exact Hm.
  - destruct (IH (Z.lcm x y)) as (Hr & Hall & Hleast).
    split; [|split].
    + eapply Z.divide_trans; [apply Z.divide_lcm_l|exact Hr].
    + intros z [<-|Hz]; [|now apply Hall].
      eapply Z.divide_trans; [apply Z.divide_lcm_r|exact Hr].
    + intros m Hxm Hallm. apply Hleast.
      * apply Z.lcm_least; [exact Hxm|apply Hallm; now left].
      * intros z Hz. apply Hallm. now right.
Qed.

(** X5: on a non-empty list [calculate_lcm] raises [ZeroDivisionError]
    exactly when at least two of the elements are zero, and it returns an
    integer in every other case. *)
Theorem calculate_lcm_zero_division :
  forall numbers : list Z,
    numbers <> [] ->
    (calculate_lcm numbers = Raise ZeroDivisionError <-> (2 <= zeros numbers)%nat) /\
    ((zeros numbers < 2)%nat -> exists r, calculate_lcm numbers = Return r).
Proof.
  intros [|x xs] Hne; [contradiction|].
  destruct (calculate_lcm_cases x xs) as [[Hr Hz]|[Hr Hz]]; rewrite Hr.
  - split; [tauto|]. intros Hlt. lia.
  - split.
    + split; [discriminate|]. intros H2. lia.
    + intros _. eexists. reflexivity.
Qed.

Lemma calculate_lcm_zero_division_witness :
  (calculate_lcm [0; 4; 0] = Raise ZeroDivisionError <->
   (2 <= zeros [0; 4; 0]%Z)%nat) /\
  exists r, calculate_lcm [0; 4; 6] = Return r.
Proof.
  split.
  - apply (calculate_lcm_zero_division [0; 4; 0]). discriminate.
  - apply (calculate_lcm_zero_division [0; 4; 6]); [discriminate|].
    cbv. lia.
Defined.

(** X6: whatever [calculate_lcm] returns is a multiple of every element
    of the list, and it divides every integer that is a multiple of all
    the elements. *)
Theorem calculate_lcm_least_common_multiple :
  forall (numbers : list Z) (r : Z),
    calculate_lcm numbers = Return r ->
    (forall x, In x numbers -> (x | r)) /\
    (forall m, (forall x, In x numbers -> (x | m)) -> (r | m)).
Proof.
  intros [|x xs] r H; [discriminate|].
  destruct (calculate_lcm_cases x xs) as [[Hr _]|[Hr _]];
    rewrite Hr in H; [discriminate|].
  injection H as <-. rewrite fold_left_lcm_formula.
  destruct (fold_left_lcm_spec xs x) as (Hx & Hall & Hleast).
  split.
  - intros y [<-|Hy]; [exact Hx|now apply Hall].
  - intros m Hm. apply Hleast.
    + apply Hm. now left.
    + intros y Hy. apply Hm. now right.
Qed.

Lemma calculate_lcm_least_common_multiple_witness :
  (forall x, In x [4; 6; 10] -> (x | 60)) /\
  (forall m, (forall x, In x [4; 6; 10] -> (x | m)) -> (60 | m)).
Proof.
  apply (calculate_lcm_least_common_multiple [4; 6; 10] 60). reflexivity.
Defined.

Lemma fold_left_lcm_all (xs : list Z) :
  forall x, 0 <= x -> fold_left Z.lcm xs x = Z.lcm x (lcm_all xs).
Proof.
  induction xs as [|y ys IH]; intros x Hx; cbn [fold_left lcm_all fold_right].
  - now rewrite Z.lcm_1_r_nonneg.
  - rewrite IH by apply Z.lcm_nonneg. fold (lcm_all ys).
    symmetry. apply Z.lcm_assoc.
Qed.

Lemma lcm_all_permutation (l l' : list Z) :
  Permutation l l' -> lcm_all l = lcm_all l'.
Proof.
  induction 1 as [|x l l' _ IH|x y l|l l' l'' _ IH1 _ IH2];
    cbn [lcm_all fold_right] in *.
  - reflexivity.
  - fold (lcm_all l) (lcm_all l'). now rewrite IH.
  - rewrite !Z.lcm_assoc, (Z.lcm_comm y x). reflexivity.
  - now rewrite IH1.
Qed.

Lemma fold_left_lcm_two_or_more (x y : Z) (rest : list Z) :
  fold_left lcm_formula (y :: rest) x = lcm_all (x :: y :: rest).
Proof.
  rewrite fold_left_lcm_formula. cbn [fold_left lcm_all fold_right].
  rewrite fold_left_lcm_all by apply Z.lcm_nonneg.
  fold (lcm_all rest). now rewrite Z.lcm_assoc.
Qed.

(** X7: the order of the elements does not matter to [calculate_lcm]:
    two lists that are permutations of one another give the same outcome,
    be it the same integer or the same exception. *)
Theorem calculate_lcm_permutation :
  forall l l' : list Z,
    Permutation l l' -> calculate_lcm l = calculate_lcm l'.
Proof.
  intros l l' Hperm. pose proof (Permutation_length Hperm) as Hlen.
  assert (Hzeros : zeros l = zeros l').
  { unfold zeros. now apply Permutation_count_occ. }
  destruct l as [|x [|y rest]].
  - apply Permutation_nil in Hperm. now subst.
  - apply Permutation_length_1_inv in Hperm. now subst.
  - destruct l' as [|x' [|y' rest']]; try discriminate Hlen.
    destruct (calculate_lcm_cases x (y :: rest)) as [[Hr Hz]|[Hr Hz]];
      destruct (calculate_lcm_cases x' (y' :: rest')) as [[Hr' Hz']|[Hr' Hz']];
      rewrite Hr, Hr'; try lia; [reflexivity|].
    rewrite !fold_left_lcm_two_or_more. f_equal.
    now apply lcm_all_permutation.
Qed.

Lemma calculate_lcm_permutation_witness :
  calculate_lcm [4; 6; 10] = calculate_lcm [10; 4; 6].
Proof.
  apply calculate_lcm_permutation.
  apply Permutation_sym, (Permutation_cons_app [4; 6] [] 10).
  apply Permutation_refl.
Defined.

(** *** Primes *)

(** The two extremes of the accuracy differ on 4506021509132835, where
    the exact root is just below 67126906. *)
Lemma int_sqrt_with_neighbours :
  int_sqrt_with sqrt_round_down 4506021509132835 = Return 67126905 /\
  int_sqrt_with float_sqrt 4506021509132835 = Return 67126906 /\
  Z.sqrt 4506021509132835 = 67126905.
Proof. repeat split; vm_compute; reflexivity. Qed.



(** ** Further properties of the route *)

Lemma as_ints_items_map (numbers : list Z) :
  as_ints_items (List.map PyInt numbers) = Return numbers.
Proof.
  induction numbers as [|n rest IH]; cbn [List.map as_ints_items as_int bind];
    [reflexivity|].
  now rewrite IH.
Qed.

Lemma process_request_fibonacci (w : world) (n : Z) :
  process_request w (only_fibonacci n) =
  ([Called "generate_fibonacci" (PyInt n)],
   respond (fmap of_ints (generate_fibonacci n))).
Proof.
  unfold process_request, only_fibonacci. cbn -[generate_fibonacci].
  destruct (generate_fibonacci n); reflexivity.
Qed.

Lemma process_request_prime (w : world) (numbers : list Z) :
  process_request w (only_prime numbers) =
  ([Called "get_primes" (of_ints numbers)],
   respond (fmap of_ints (get_primes numbers))).
Proof.
  unfold process_request, only_prime.
  cbn -[get_primes as_ints_items]. unfold call.
  rewrite as_ints_items_map. cbn [bind].
  destruct (get_primes numbers); reflexivity.
Qed.

Lemma process_request_lcm (w : world) (numbers : list Z) :
  process_request w (only_lcm numbers) =
  ([Called "calculate_lcm" (of_ints numbers)],
   respond (fmap PyInt (calculate_lcm numbers))).
Proof.
  unfold process_request, only_lcm.
  cbn -[calculate_lcm as_ints_items]. unfold call.
  rewrite as_ints_items_map. cbn [bind].
  destruct (calculate_lcm numbers); reflexivity.
Qed.

Lemma process_request_hcf (w : world) (numbers : list Z) :
  process_request w (only_hcf numbers) =
  ([Called "calculate_hcf" (of_ints numbers)],
   respond (fmap PyInt (calculate_hcf numbers))).
Proof.
  unfold process_request, only_hcf.
  cbn -[calculate_hcf as_ints_items]. unfold call.
  rewrite as_ints_items_map. cbn [bind].
  destruct (calculate_hcf numbers); reflexivity.
Qed.

(** X9: a request that sets exactly one field makes exactly one call, to
    the function of that field and with the field's value, and the answer
    is built from the outcome of that call alone: 200 with the result as
    [data], 400 with the exception's text for a [ValueError], 500 with the
    generic message for any other exception. *)
Theorem single_field_dispatch :
  forall w : world,
    (forall n, process_request w (only_fibonacci n) =
       ([Called "generate_fibonacci" (PyInt n)],
        respond (fmap of_ints (generate_fibonacci n)))) /\
    (forall numbers, process_request w (only_prime numbers) =
       ([Called "get_primes" (of_ints numbers)],
        respond (fmap of_ints (get_primes numbers)))) /\
    (forall numbers, process_request w (only_lcm numbers) =
       ([Called "calculate_lcm" (of_ints numbers)],
        respond (fmap PyInt (calculate_lcm numbers)))) /\
    (forall numbers, process_request w (only_hcf numbers) =
       ([Called "calculate_hcf" (of_ints numbers)],
        respond (fmap PyInt (calculate_hcf numbers)))) /\
    (forall question, process_request w (ai_request question) =
       ([Called "ask_gemini" (PyStr question)],
        respond (fmap PyStr (ask_gemini w question)))).
Proof.
  intros w. split; [|split; [|split; [|split]]].
  - apply process_request_fibonacci.
  - apply process_request_prime.
  - apply process_request_lcm.
  - apply process_request_hcf.
  - intros question. rewrite process_request_ai.
    destruct (ask_gemini w question); reflexivity.
Qed.

(** X10: a request that sets only [fibonacci] is answered with status 400
    and the error "Number must be non-negative" when the number is
    negative, and otherwise with status 200 and the first [n] Fibonacci
    numbers as [data]. *)
Theorem fibonacci_route :
  forall (w : world) (n : Z),
    (n < 0 ->
     snd (process_request w (only_fibonacci n)) =
     HTTPException 400 (error_envelope "Number must be non-negative")) /\
    (0 <= n ->
     snd (process_request w (only_fibonacci n)) =
     Returned [ ("is_success", PyBool true);
                ("official_email", PyStr OFFICIAL_EMAIL);
                ("data", of_ints (List.map fib (seq 0 (Z.to_nat n)))) ]).
Proof.
  intros w n. rewrite process_request_fibonacci. cbn [snd]. split.
  - intros Hn. unfold generate_fibonacci.
    destruct (Z.ltb_spec n 0); [reflexivity|lia].
  - intros Hn. rewrite generate_fibonacci_nonneg by exact Hn. reflexivity.
Qed.

Lemma fibonacci_route_witness :
  snd (process_request world_without_key (only_fibonacci (-1))) =
    HTTPException 400 (error_envelope "Number must be non-negative") /\
  snd (process_request world_without_key (only_fibonacci 5)) =
    Returned [ ("is_success", PyBool true);
               ("official_email", PyStr OFFICIAL_EMAIL);
               ("data", of_ints (List.map fib (seq 0 (Z.to_nat 5)))) ].
Proof.
  split.
  - apply (proj1 (fibonacci_route world_without_key (-1))). lia.
  - apply (proj2 (fibonacci_route world_without_key 5)). lia.
Defined.

(** X11: a request that sets only [lcm] is answered with status 400 and
    "List cannot be empty" for the empty list, with status 500 and the
    generic message when the list holds two or more zeros, and otherwise
    with status 200 and the least common multiple as [data]. *)
Theorem lcm_route :
  forall (w : world) (numbers : list Z),
    snd (process_request w (only_lcm numbers)) =
    match numbers with
    | [] => HTTPException 400 (error_envelope "List cannot be empty")
    | x :: xs =>
        if (2 <=? zeros numbers)%nat
        then HTTPException 500 (error_envelope "Internal server error")
        else Returned [ ("is_success", PyBool true);
                        ("official_email", PyStr OFFICIAL_EMAIL);
                        ("data", PyInt (fold_left lcm_formula xs x)) ]
    end.
Proof.
  intros w numbers. rewrite process_request_lcm. cbn [snd].
  destruct numbers as [|x xs]; [reflexivity|].
  destruct (calculate_lcm_cases x xs) as [[Hr Hz]|[Hr Hz]]; rewrite Hr.
  - destruct (Nat.leb_spec 2 (zeros (x :: xs))); [reflexivity|lia].
  - destruct (Nat.leb_spec 2 (zeros (x :: xs))); [lia|reflexivity].
Qed.

(** X12: a request that sets only [hcf] is never answered with status
    500: the empty list gives status 400 and "List cannot be empty", and
    every other list gives status 200 with the [gcd] of its elements,
    folded from the left, as [data]. *)
Theorem hcf_route :
  forall (w : world) (numbers : list Z),
    snd (process_request w (only_hcf numbers)) =
    match numbers with
    | [] => HTTPException 400 (error_envelope "List cannot be empty")
    | x :: xs =>
        Returned [ ("is_success", PyBool true);
                   ("official_email", PyStr OFFICIAL_EMAIL);
                   ("data", PyInt (fold_left Z.gcd xs x)) ]
    end.
Proof.
  intros w numbers. rewrite process_request_hcf. cbn [snd].
  destruct numbers as [|x xs]; [reflexivity|].
  change (calculate_hcf (x :: xs)) with
    (reduce_from (fun a b => Return (gcd a b)) x xs).
  rewrite reduce_from_gcd. reflexivity.
Qed.

Lemma primes_of_below_2 (numbers : list Z) :
  (forall x, In x numbers -> x < 2) -> primes_of numbers = Return [].
Proof.
  induction numbers as [|num rest IH]; intros Hall; [reflexivity|].
  cbn [primes_of].
  rewrite (is_prime_below_2 num (Hall num (or_introl eq_refl))).
  cbn [bind]. rewrite IH by (intros x Hx; apply Hall; now right).
  reflexivity.
Qed.

(** X13: a request that sets only [prime] is answered with status 400 and
    "List cannot be empty" for the empty list, and with status 200 and an
    empty list as [data] for a non-empty list whose elements are all
    below 2: zero, one and the negative integers are never kept. *)
Theorem prime_route_below_2 :
  forall (w : world) (numbers : list Z),
    (numbers = [] ->
     snd (process_request w (only_prime numbers)) =
     HTTPException 400 (error_envelope "List cannot be empty")) /\
    (numbers <> [] ->
     (forall x, In x numbers -> x < 2) ->
     snd (process_request w (only_prime numbers)) =
     Returned [ ("is_success", PyBool true);
                ("official_email", PyStr OFFICIAL_EMAIL);
                ("data", PyList []) ]).
Proof.
  intros w numbers. rewrite process_request_prime. cbn [snd]. split.
  - intros ->. reflexivity.
  - intros Hne Hall. destruct numbers as [|num rest]; [contradiction|].
    unfold get_primes. rewrite (primes_of_below_2 (num :: rest) Hall).
    reflexivity.
Qed.

Lemma prime_route_below_2_witness :
  snd (process_request world_without_key (only_prime [])) =
    HTTPException 400 (error_envelope "List cannot be empty") /\
  snd (process_request world_without_key (only_prime [1; 0; -7])) =
    Returned [ ("is_success", PyBool true);
               ("official_email", PyStr OFFICIAL_EMAIL);
               ("data", PyList []) ].
Proof.
  split.
  - apply (proj1 (prime_route_below_2 world_without_key [])). reflexivity.
  - apply (proj2 (prime_route_below_2 world_without_key [1; 0; -7])).
    + discriminate.
    + intros x Hx. cbn in Hx.
      repeat (destruct Hx as [<-|Hx]; [reflexivity|]). contradiction.
Defined.

Lemma respond_cases (data : outcome pyobj) :
  (exists d, data = Return d /\
     respond data = Returned [ ("is_success", PyBool true);
                               ("official_email", PyStr OFFICIAL_EMAIL);
                               ("data", d) ]) \/
  (exists e, data = Raise e /\ is_ValueError e = true /\
     respond data = HTTPException 400 (error_envelope (str e))) \/
  (exists e, data = Raise e /\ is_ValueError e = false /\
     respond data = HTTPException 500 (error_envelope "Internal server error")).
Proof.
  destruct data as [d|e]; [left; eauto|right].
  cbn [respond]. destruct (is_ValueError e) eqn:He; [left|right]; eauto.
Qed.

(** Every request falls in one of six classes. *)
Lemma request_cases (request : BFHLRequest) :
  present_count request <> 1%nat \/
  (exists n, request = only_fibonacci n) \/
  (exists numbers, request = only_prime numbers) \/
  (exists numbers, request = only_lcm numbers) \/
  (exists numbers, request = only_hcf numbers) \/
  (exists question, request = ai_request question).
Proof.
  destruct request as [[n|] [p|] [l|] [h|] [a|]];
    try (left; cbv; discriminate).
  - right; left. now exists n.
  - right; right; left. now exists p.
  - right; right; right; left. now exists l.
  - right; right; right; right; left. now exists h.
  - right; right; right; right; right. now exists a.
Qed.

Lemma validation_failure (w : world) (request : BFHLRequest) :
  present_count request <> 1%nat ->
  process_request w request =
  ([], HTTPException 400 (error_envelope "Exactly one key must be provided")).
Proof.
  destruct request as [[n|] [p|] [l|] [h|] [a|]]; intros Hcount;
    try reflexivity; exfalso; apply Hcount; reflexivity.
Qed.

Lemma process_request_cases (w : world) (request : BFHLRequest) :
  snd (process_request w request) =
    HTTPException 400 (error_envelope "Exactly one key must be provided") \/
  exists data, snd (process_request w request) = respond data.
Proof.
  destruct (request_cases request)
    as [H|[[n ->]|[[p ->]|[[l ->]|[[h ->]|[a ->]]]]]].
  - left. rewrite validation_failure by exact H. reflexivity.
  - right. rewrite process_request_fibonacci. eexists. reflexivity.
  - right. rewrite process_request_prime. eexists. reflexivity.
  - right. rewrite process_request_lcm. eexists. reflexivity.
  - right. rewrite process_request_hcf. eexists. reflexivity.
  - right. rewrite process_request_ai. cbn [snd].
    exists (fmap PyStr (ask_gemini w a)).
    destruct (ask_gemini w a); reflexivity.
Qed.

(** X14: the status of every answer of the route is 200, 400 or 500; it
    is 200 exactly when the envelope says [is_success] is true; and an
    answer with status 500 always carries the generic message "Internal
    server error" and nothing of the exception that caused it. *)
Theorem status_classification :
  forall (w : world) (request : BFHLRequest),
    let r := snd (process_request w request) in
    (status_of r = 200 \/ status_of r = 400 \/ status_of r = 500) /\
    (status_of r = 200 <->
     dict_get (envelope_of r) "is_success" = Some (PyBool true)) /\
    (status_of r = 500 ->
     envelope_of r = error_envelope "Internal server error").
Proof.
  intros w request r. subst r.
  destruct (process_request_cases w request) as [->|[data ->]].
  - cbn. repeat split; try tauto; intros; discriminate.
  - destruct (respond_cases data)
      as [(d & _ & ->)|[(e & _ & _ & ->)|(e & _ & _ & ->)]];
      cbn; repeat split; try tauto; intros; try discriminate; reflexivity.
Qed.

Lemma status_classification_witness :
  envelope_of (snd (process_request world_without_key (only_lcm [0; 0]))) =
  error_envelope "Internal server error".
Proof.
  apply (status_classification world_without_key (only_lcm [0; 0])).
  reflexivity.
Defined.

(** X15: status 500 can only answer a request whose single field is
    [prime], [lcm] or [AI]; requests that fail validation and requests for
    [fibonacci] or [hcf] are never answered with status 500. *)
Theorem internal_error_sources :
  forall (w : world) (request : BFHLRequest),
    status_of (snd (process_request w request)) = 500 ->
    (exists numbers, request = only_prime numbers) \/
    (exists numbers, request = only_lcm numbers) \/
    (exists question, request = ai_request question).
Proof.
  intros w request Hstatus.
  destruct (request_cases request)
    as [H|[[n ->]|[[p ->]|[[l ->]|[[h ->]|[a ->]]]]]]; eauto.
  - rewrite validation_failure in Hstatus by exact H. discriminate.
  - rewrite process_request_fibonacci in Hstatus. cbn [snd] in Hstatus.
    unfold generate_fibonacci in Hstatus.
    destruct (n <? 0); discriminate.
  - rewrite process_request_hcf in Hstatus. cbn [snd] in Hstatus.
    destruct h as [|x xs]; [discriminate|].
    change (calculate_hcf (x :: xs)) with
      (reduce_from (fun a b => Return (gcd a b)) x xs) in Hstatus.
    rewrite reduce_from_gcd in Hstatus. discriminate.
Qed.

Lemma internal_error_sources_witness :
  (exists numbers, only_lcm [0; 0] = only_prime numbers) \/
  (exists numbers, only_lcm [0; 0] = only_lcm numbers) \/
  (exists question, only_lcm [0; 0] = ai_request question).
Proof.
  apply (internal_error_sources world_without_key (only_lcm [0; 0])).
  reflexivity.
Defined.

(** X16: the route makes one call when exactly one field is present and
    no call otherwise; it never makes two. *)
Theorem call_count :
  forall (w : world) (request : BFHLRequest),
    List.length (fst (process_request w request)) =
    if Nat.eqb (present_count request) 1 then 1%nat else 0%nat.
Proof.
  intros w request.
  destruct (request_cases request)
    as [H|[[n ->]|[[p ->]|[[l ->]|[[h ->]|[a ->]]]]]].
  - rewrite validation_failure by exact H.
    destruct (Nat.eqb_spec (present_count request) 1); [contradiction|reflexivity].
  - now rewrite process_request_fibonacci.
  - now rewrite process_request_prime.
  - now rewrite process_request_lcm.
  - now rewrite process_request_hcf.
  - now rewrite process_request_ai.
Qed.

(** ** Further properties of the fetcher *)

(** X17: an exception raised by [requests.post] itself (a timeout, a
    refused connection) leaves [ask_gemini] unchanged, and the route
    answers with status 500 and the generic message, unless the exception
    belongs to the [ValueError] family, in which case the route answers
    with status 400 and the exception's text. *)
Theorem transport_failure :
  forall (w : world) (question : string) (e : exn),
    not_key (GEMINI_API_KEY w) = false ->
    requests_post w (request_url w) request_headers (request_body question)
      = Raise e ->
    ask_gemini w question = Raise e /\
    snd (process_request w (ai_request question)) =
    if is_ValueError e then HTTPException 400 (error_envelope (str e))
    else HTTPException 500 (error_envelope "Internal server error").
Proof.
  intros w question e Hkey Hpost.
  assert (Hask : ask_gemini w question = Raise e).
  { unfold ask_gemini. now rewrite Hkey, Hpost. }
  split; [exact Hask|].
  rewrite process_request_ai, Hask. reflexivity.
Qed.

Lemma transport_failure_witness :
  ask_gemini {| GEMINI_API_KEY := Some "secret";
                requests_post := fun _ _ _ => Raise RequestException |}
             "capital?" = Raise RequestException /\
  snd (process_request
         {| GEMINI_API_KEY := Some "secret";
            requests_post := fun _ _ _ => Raise RequestException |}
         (ai_request "capital?")) =
  HTTPException 500 (error_envelope "Internal server error").
Proof.
  apply (transport_failure
           {| GEMINI_API_KEY := Some "secret";
              requests_post := fun _ _ _ => Raise RequestException |}
           "capital?" RequestException); reflexivity.
Defined.

Lemma no_whitespace_append (w : string) (c : ascii) :
  no_whitespace w = true -> isspace c = false ->
  no_whitespace (w ++ String c EmptyString) = true.
Proof.
  intros Hw Hc. induction w as [|d w IH]; cbn in *.
  - now rewrite Hc.
  - apply andb_true_iff in Hw. destruct Hw as [Hd Hw].
    rewrite Hd. cbn. now apply IH.
Qed.

Lemma append_not_empty (w : string) (c : ascii) :
  (w ++ String c EmptyString)%string <> EmptyString.
Proof. destruct w; discriminate. Qed.

Lemma split_from_words (s : string) :
  forall word,
    match word with
    | Some w => is_word w
    | None => True
    end ->
    Forall is_word (split_from s word).
Proof.
  induction s as [|c s IH]; intros word Hword; cbn [split_from].
  - destruct word; [constructor; [exact Hword|constructor]|constructor].
  - destruct (isspace c) eqn:Hc.
    + destruct word as [w|]; [constructor; [exact Hword|]|]; now apply IH.
    + destruct word as [w|]; apply IH.
      * destruct Hword as [_ Hw]. split.
        -- apply append_not_empty.
        -- now apply no_whitespace_append.
      * split; [discriminate|]. cbn. now rewrite Hc.
Qed.

Lemma ask_gemini_returns (w : world) (question word : string) :
  ask_gemini w question = Return word ->
  exists text, first_item (split (strip text)) = Return word.
Proof.
  unfold ask_gemini. destruct (not_key (GEMINI_API_KEY w)); [discriminate|].
  destruct (requests_post w _ _ _) as [response|]; [|discriminate].
  cbn [bind]. destruct (negb (status_code response =? 200)); [discriminate|].
  destruct (json response) as [result|]; [|discriminate]. cbn [bind].
  destruct (answer_of result) as [answer|]; [|discriminate]. cbn [bind].
  destruct (str_of answer) as [text|]; [|discriminate]. cbn [bind].
  intros H. now exists text.
Qed.

(** X18: whenever [ask_gemini] returns, what it returns is a single word:
    it is not empty and it contains no whitespace character. *)
Theorem ask_gemini_single_word :
  forall (w : world) (question word : string),
    ask_gemini w question = Return word -> is_word word.
Proof.
  intros w question word H.
  destruct (ask_gemini_returns w question word H) as [text Hfirst].
  pose proof (split_from_words (strip text) None I) as Hall.
  fold (split (strip text)) in Hall.
  destruct (split (strip text)) as [|first rest]; [discriminate|].
  injection Hfirst as <-. now inversion Hall.
Qed.

Lemma ask_gemini_single_word_witness : is_word "Paris".
Proof.
  apply (ask_gemini_single_word
           (world_answering (body_with_text (PyStr "  Paris is the capital ")))
           "capital?" "Paris").
  reflexivity.
Defined.

(** X19: [ask_gemini] reads its surroundings only through the credential
    and, when there is one, through the answer to the one request it
    sends: two surroundings that agree on these give the same outcome.  In
    particular, without a credential the remote service plays no part. *)
Theorem ask_gemini_frame :
  forall (w w' : world) (question : string),
    GEMINI_API_KEY w = GEMINI_API_KEY w' ->
    (not_key (GEMINI_API_KEY w) = false ->
     requests_post w (request_url w) request_headers (request_body question) =
     requests_post w' (request_url w') request_headers (request_body question)) ->
    ask_gemini w question = ask_gemini w' question.
Proof.
  intros w w' question Hkey Hpost. unfold ask_gemini.
  rewrite <- Hkey. destruct (not_key (GEMINI_API_KEY w)); [reflexivity|].
  now rewrite Hpost.
Qed.

Lemma ask_gemini_frame_witness :
  ask_gemini world_without_key "capital?" =
  ask_gemini {| GEMINI_API_KEY := None;
                requests_post := fun _ _ _ =>
                  Return {| status_code := 200;
                            json := Return (body_with_text (PyStr "Paris")) |} |}
             "capital?".
Proof.
  apply ask_gemini_frame.
  - reflexivity.
  - intros H. discriminate H.
Defined.

(** ** The health route *)

(** X20: [health_check] answers with status 200 and an envelope that says
    [is_success] is true and has neither [data] nor [error]; its
    [official_email] is the one every answer of [/bfhl] carries. *)
Theorem health_check_envelope :
  forall (w : world) (request : BFHLRequest),
    status_of health_check = 200 /\
    dict_get (envelope_of health_check) "is_success" = Some (PyBool true) /\
    dict_get (envelope_of health_check) "data" = None /\
    dict_get (envelope_of health_check) "error" = None /\
    dict_get (envelope_of health_check) "official_email" =
    dict_get (envelope_of (snd (process_request w request))) "official_email".
Proof.
  intros w request. repeat split.
  destruct (process_request_shape w request) as [(d & ->)|(s & m & ->)];
    reflexivity.
Qed.
